(** * Legacy Authentics site: route handlers and the upload page

    A shallow embedding of the request handlers of the site
    ([app/api/verify/route.ts], [app/api/upload/route.ts],
    [app/api/report/route.ts]) and of the client-side upload flow
    ([app/upload/page.tsx]), with the properties the specification states
    about them.

    JavaScript objects used as records or maps are finite maps from
    property names to values; calls that leave the handler (the random
    generator, the S3 presigner, pdf-lib, [fetch]) are events of a small
    program tree, answered by an implementation that threads its own
    state. *)

From stdpp Require Import base option list gmap strings.
From stdpp Require Import pretty.
From Stdlib Require Import ZArith Floats.PrimFloat.

Local Open Scope Z_scope.
Local Open Scope string_scope.

(** ** JavaScript values *)

(** The values that cross the JSON boundary in this code base.  Property
    lookup on an object is map lookup; an absent property reads as
    [undefined].  Numbers and arrays are left out: no handler here puts
    one in a response, and the page reads only properties of objects. *)
#[warning="-register-all"]
Inductive JsValue : Type :=
| JUndefined
| JNull
| JBool (b : bool)
| JString (s : string)
| JObject (fields : gmap string JsValue).

(** A thrown value.  The only property the code ever reads from one is
    [message] (through [err?.message]), which may be absent. *)
Record JsError : Type := Error { message : option string }.

(** A settled promise, or the outcome of a call that may throw. *)
Inductive Result (A : Type) : Type :=
| Ok (a : A)
| Err (e : JsError).
Arguments Ok {A} a.
Arguments Err {A} e.

(** [obj.name] for a value [obj] that has already been checked to be
    neither [null] nor [undefined]. *)
Definition get_property (name : string) (v : JsValue) : JsValue :=
  match v with
  | JObject fields => default JUndefined (fields !! name)
  | _ => JUndefined
  end.

(** [a || b] on strings: the empty string is the only falsy string. *)
Definition string_or (a b : string) : string :=
  if decide (a = "") then b else a.

(** ** Responses *)

Inductive BodyInit : Type :=
| BodyText (text : string)
| BodyBytes (bytes : list Byte.byte)
| BodyJson (data : JsValue).

(** What a handler passes to the response constructor.  Headers that the
    framework derives from the kind of body are not part of the record:
    [headers] holds the entries of the [headers] object the handler
    wrote. *)
Record NextResponse : Type := mkResponse {
  body : BodyInit;
  status : Z;
  headers : gmap string string
}.

Record ResponseInit : Type := mkInit {
  init_status : option Z;
  init_headers : option (gmap string string)
}.

(** [new NextResponse(body, init)]: status defaults to 200. *)
Definition new_NextResponse (b : BodyInit) (init : ResponseInit) : NextResponse :=
  {| body := b;
     status := default 200 (init_status init);
     headers := default ∅ (init_headers init) |}.

(** [NextResponse.json(data)]. *)
Definition NextResponse_json (data : JsValue) : NextResponse :=
  new_NextResponse (BodyJson data) {| init_status := None; init_headers := None |}.

(** ** Handlers as program trees

    A handler either returns, throws, or calls out through an event of
    signature [E] and continues with the answer.  Handlers here are
    straight-line code and loops over fixed lists, so the trees are
    finite. *)
Inductive Prog (E : Type -> Type) (A : Type) : Type :=
| Ret (a : A)
| Throw (e : JsError)
| Vis {X : Type} (ev : E X) (k : X -> Prog E A).
Arguments Ret {E A} a.
Arguments Throw {E A} e.
Arguments Vis {E A X} ev k.

Fixpoint bind {E A B} (p : Prog E A) (f : A -> Prog E B) : Prog E B :=
  match p with
  | Ret a => f a
  | Throw e => Throw e
  | Vis ev k => Vis ev (fun x => bind (k x) f)
  end.

(** [try { p } catch (e) { h e }]. *)
Fixpoint try_catch {E A} (p : Prog E A) (h : JsError -> Prog E A) : Prog E A :=
  match p with
  | Ret a => Ret a
  | Throw e => h e
  | Vis ev k => Vis ev (fun x => try_catch (k x) h)
  end.

(** A call whose answer is used as it is. *)
Definition perform {E X} (ev : E X) : Prog E X := Vis ev Ret.

(** [await promise], and a synchronous call that may throw: the answer is
    a settled outcome, and a rejection is rethrown at the call site. *)
Definition await {E X} (ev : E (Result X)) : Prog E X :=
  Vis ev (fun r => match r with Ok x => Ret x | Err e => Throw e end).

(** [for (const x of xs) { f x }]. *)
Fixpoint for_of {E A} (xs : list A) (f : A -> Prog E unit) : Prog E unit :=
  match xs with
  | [] => Ret tt
  | x :: rest => bind (f x) (fun _ => for_of rest f)
  end.

Declare Scope prog_scope.
Delimit Scope prog_scope with prog.
Notation "'let*' x ':=' p 'in' q" := (bind p (fun x => q))
  (at level 10, x pattern, p at level 100, q at level 200) : prog_scope.
Notation "p ';;' q" := (bind p (fun _ => q))
  (at level 100, q at level 200, right associativity) : prog_scope.

(** *** Running a handler

    An implementation answers every event from a state of its own.  A run
    returns the outcome, the final state and the calls made, in order,
    each with its answer. *)
Definition Impl (E : Type -> Type) (W : Type) : Type :=
  forall X : Type, E X -> W -> X * W.

Inductive Call (E : Type -> Type) : Type :=
| Called {X : Type} (ev : E X) (answer : X).
Arguments Called {E X} ev answer.

Record Run (E : Type -> Type) (W A : Type) : Type := mkRun {
  outcome : Result A;
  final : W;
  trace : list (Call E)
}.
Arguments mkRun {E W A} outcome final trace.
Arguments outcome {E W A} r.
Arguments final {E W A} r.
Arguments trace {E W A} r.

(** The run [r], preceded by the call [c]. *)
Definition after {E W A} (c : Call E) (r : Run E W A) : Run E W A :=
  match r with
  | mkRun o w tr => mkRun o w (c :: tr)
  end.

Fixpoint run {E W A} (impl : Impl E W) (p : Prog E A) (w : W) : Run E W A :=
  match p with
  | Ret a => mkRun (Ok a) w []
  | Throw e => mkRun (Err e) w []
  | Vis ev k =>
      let '(x, w') := impl _ ev w in
      after (Called ev x) (run impl (k x) w')
  end.

(** An implementation respects a relation between states when, from
    related states, it gives every call the same answer and ends in
    related states: the answers do not depend on what the relation
    leaves open. *)
Definition respects {E W} (impl : Impl E W) (R : W -> W -> Prop) : Prop :=
  forall X (ev : E X) (w1 w2 : W),
    R w1 w2 ->
    (impl X ev w1).1 = (impl X ev w2).1 /\ R (impl X ev w1).2 (impl X ev w2).2.

(** ** The verification lookup: [app/api/verify/route.ts] *)
Module VerifyRoute.

(** [URLSearchParams]: the decoded name/value pairs of the query, in
    order; a name may occur more than once. *)
Definition URLSearchParams : Type := list (string * string).

(** [searchParams.get(name)]: the first value under [name], or [null]. *)
Fixpoint get (name : string) (params : URLSearchParams) : option string :=
  match params with
  | [] => None
  | (n, v) :: rest => if decide (n = name) then Some v else get name rest
  end.

Record NextURL : Type := { pathname : string; searchParams : URLSearchParams }.
Record NextRequest : Type := { nextUrl : NextURL }.

(** The handler is an [async] function that awaits nothing and reads
    only the request, so it is a function from requests to responses.
    [code === 'VALID123'] for a [string | null]: strict equality holds
    only for a string with exactly these characters. *)
Definition GET (req : NextRequest) : NextResponse :=
  let code := get "code" (searchParams (nextUrl req)) in
  if decide (code = Some "VALID123") then
    NextResponse_json
      (JObject {[ "valid" := JBool true; "issuedAt" := JString "2024-01-01" ]})
  else
    NextResponse_json (JObject {[ "valid" := JBool false ]}).

(** The request for the URL [/api/verify] followed by the given query. *)
Definition request (query : URLSearchParams) : NextRequest :=
  {| nextUrl := {| pathname := "/api/verify"; searchParams := query |} |}.

End VerifyRoute.

(** ** The upload-URL issuer: [app/api/upload/route.ts] *)
Module UploadRoute.

Record S3Client : Type := { region : option string }.

Record PutObjectCommand : Type := {
  Bucket : option string;
  Key : string;
  ContentType : string
}.

Record PresignOptions : Type := { expiresIn : Z }.

(** What the handler asks of its surroundings: the random-identifier
    generator and the presigner of the storage SDK. *)
Inductive Event : Type -> Type :=
| crypto_randomUUID : Event string
| getSignedUrl (client : S3Client) (command : PutObjectCommand)
    (options : PresignOptions) : Event (Result string).

Section handler.
(** [process.env], an object used as a map from names to strings. *)
Variable process_env : gmap string string.

Definition s3 : S3Client := {| region := process_env !! "AWS_REGION" |}.

Definition POST : Prog Event NextResponse :=
  (let* uuid := perform crypto_randomUUID in
   let key := "uploads/" ++ uuid in
   let command :=
     {| Bucket := process_env !! "AWS_BUCKET_NAME";
        Key := key;
        ContentType := "application/octet-stream" |} in
   let* uploadUrl := await (getSignedUrl s3 command {| expiresIn := 60 |}) in
   Ret (NextResponse_json (JObject {[ "uploadUrl" := JString uploadUrl ]})))%prog.
End handler.

(** The presign requests of a run, in order. *)
Definition presign_request (c : Call Event)
  : option (S3Client * PutObjectCommand * PresignOptions) :=
  match c with
  | Called ev _ =>
      match ev with
      | getSignedUrl client command options => Some (client, command, options)
      | crypto_randomUUID => None
      end
  end.

Definition presign_requests (tr : list (Call Event))
  : list (S3Client * PutObjectCommand * PresignOptions) :=
  omap presign_request tr.

Definition requested_expiries (tr : list (Call Event)) : list Z :=
  (fun '(_, _, options) => expiresIn options) <$> presign_requests tr.

Definition signed_content_types (tr : list (Call Event)) : list string :=
  (fun '(_, command, _) => ContentType command) <$> presign_requests tr.

(** The identifiers the generator handed out during a run, in order. *)
Definition generated_uuid (c : Call Event) : option string :=
  match c with
  | Called ev answer =>
      match ev in Event X return X -> option string with
      | crypto_randomUUID => fun uuid => Some uuid
      | getSignedUrl _ _ _ => fun _ => None
      end answer
  end.

Definition generated_uuids (tr : list (Call Event)) : list string :=
  omap generated_uuid tr.

(** The object keys for which a run asked a write permission. *)
Definition issued_keys (tr : list (Call Event)) : list string :=
  (fun '(_, command, _) => Key command) <$> presign_requests tr.

(** *** A scripted implementation, for running the handler

    The generator hands out queued identifiers (and the empty string
    once the queue is empty); the presigner is a function of the
    request. *)
Record Scripted : Type := {
  queued_uuids : list string;
  presigner : S3Client -> PutObjectCommand -> PresignOptions -> Result string
}.

Definition scripted : Impl Event Scripted := fun X ev w =>
  match ev in Event X return X * Scripted with
  | crypto_randomUUID =>
      (default "" (head (queued_uuids w)),
       {| queued_uuids := tail (queued_uuids w); presigner := presigner w |})
  | getSignedUrl client command options =>
      (presigner w client command options, w)
  end.

(** A presigner that answers with a URL naming bucket and key. *)
Definition url_presigner (_ : S3Client) (command : PutObjectCommand)
    (_ : PresignOptions) : Result string :=
  match Bucket command with
  | Some bucket =>
      Ok ("https://" ++ bucket ++ ".s3.amazonaws.com/" ++ Key command)
  | None => Err (Error (Some "No value provided for input HTTP label: Bucket."))
  end.

Definition demo_env : gmap string string :=
  {[ "AWS_REGION" := "us-east-1"; "AWS_BUCKET_NAME" := "autographs" ]}.

Definition demo_world (uuids : list string) : Scripted :=
  {| queued_uuids := uuids; presigner := url_presigner |}.

End UploadRoute.

(** ** The client-side uploader: [app/upload/page.tsx] *)
Module UploadPage.

(** A [File] picked by the user: [type] is its declared media type, the
    empty string when the browser could not tell. *)
Record File : Type := { name : string; type : string; bytes : list Byte.byte }.

Record RequestInit : Type := {
  method : string;
  request_body : option File;
  request_headers : gmap string string
}.

(** A received response: [ok] and the settled outcome of [json()]. *)
Record Response : Type := { ok : bool; json : Result JsValue }.

Inductive Event : Type -> Type :=
| setStatus (text : string) : Event unit
| fetch (input : JsValue) (init : RequestInit) : Event (Result Response).

(** String concatenation with a value on the right: [ToString]. *)
Definition to_string (v : JsValue) : string :=
  match v with
  | JUndefined => "undefined"
  | JNull => "null"
  | JBool true => "true"
  | JBool false => "false"
  | JString s => s
  | JObject _ => "[object Object]"
  end.

(** [const { uploadUrl, key } = data]: a [TypeError] on [null] and
    [undefined] (the wording of its message is the engine's), property
    reads otherwise. *)
Definition destructure (data : JsValue) : Prog Event (JsValue * JsValue) :=
  match data with
  | JUndefined | JNull =>
      Throw (Error (Some "Cannot destructure property 'uploadUrl'"))
  | _ => Ret (get_property "uploadUrl" data, get_property "key" data)
  end.

Definition settled {A} (r : Result A) : Prog Event A :=
  match r with Ok a => Ret a | Err e => Throw e end.

(** The [Content-Type] the uploader sends with a file. *)
Definition put_content_type (file : File) : string :=
  string_or (type file) "application/octet-stream".

Definition handleUpload (file : option File) : Prog Event unit :=
  match file with
  | None => Ret tt
  | Some file =>
    (perform (setStatus "Generating upload URL…");;
     try_catch
       (let* res :=
          await (fetch (JString "/api/upload")
                   {| method := "POST"; request_body := None;
                      request_headers := ∅ |}) in
        if negb (ok res) then Throw (Error (Some "Failed to get upload URL"))
        else
        let* data := settled (json res) in
        let* (uploadUrl, key) := destructure data in
        perform (setStatus "Uploading to secure storage…");;
        let* uploadRes :=
          await (fetch uploadUrl
                   {| method := "PUT"; request_body := Some file;
                      request_headers :=
                        {[ "Content-Type" := put_content_type file ]} |}) in
        if negb (ok uploadRes) then Throw (Error (Some "Upload failed"))
        else
        perform (setStatus ("Upload complete! Your file key is " ++ to_string key)))
       (fun err =>
          perform (setStatus ("Error: " ++ default "unknown" (message err)))))%prog
  end.

(** The requests of a run that use the given method, in order. *)
Definition request_with (m : string) (c : Call Event)
  : option (JsValue * RequestInit) :=
  match c with
  | Called ev _ =>
      match ev with
      | fetch input init =>
          if decide (method init = m) then Some (input, init) else None
      | setStatus _ => None
      end
  end.

Definition put_requests (tr : list (Call Event)) : list (JsValue * RequestInit) :=
  omap (request_with "PUT") tr.

(** The status texts shown during a run, in order. *)
Definition shown_status (c : Call Event) : option string :=
  match c with
  | Called ev _ =>
      match ev with
      | setStatus text => Some text
      | fetch _ _ => None
      end
  end.

Definition statuses (tr : list (Call Event)) : list string :=
  omap shown_status tr.

(** What the browser receives for a response of a route handler: [ok]
    for a status from 200 to 299; [json()] yields the value the handler
    serialised and rejects for a body that is not JSON. *)
Definition received (r : NextResponse) : Response :=
  {| ok := bool_decide (200 <= status r <= 299);
     json := match body r with
             | BodyJson data => Ok data
             | _ => Err (Error (Some "Unexpected token"))
             end |}.

(** *** A network for running the page

    [POST /api/upload] is answered by running the issuer against the
    scripted storage SDK (a throwing handler becomes a bare 500); a PUT
    is acknowledged by the storage service. *)
Record Network : Type := {
  env : gmap string string;
  sdk : UploadRoute.Scripted;
  stored : list (JsValue * RequestInit)
}.

Definition network : Impl Event Network := fun X ev w =>
  match ev in Event X return X * Network with
  | setStatus _ => (tt, w)
  | fetch input init =>
      if decide (method init = "POST") then
        let r := run UploadRoute.scripted (UploadRoute.POST (env w)) (sdk w) in
        let res :=
          match outcome r with
          | Ok response => received response
          | Err _ => {| ok := false; json := Err (Error (Some "Unexpected token")) |}
          end in
        (Ok res, {| env := env w; sdk := final r; stored := stored w |})
      else
        (Ok {| ok := true; json := Err (Error (Some "Unexpected end of JSON input")) |},
         {| env := env w; sdk := sdk w; stored := stored w ++ [(input, init)] |})
  end.

Definition demo_network (uuids : list string) : Network :=
  {| env := UploadRoute.demo_env; sdk := UploadRoute.demo_world uuids; stored := [] |}.

Definition png : File := {| name := "autograph.png"; type := "image/png"; bytes := [] |}.
Definition untyped : File := {| name := "scan.xyz"; type := ""; bytes := [] |}.

End UploadPage.

(** ** The report generator: [app/api/report/route.ts] *)
Module ReportRoute.

(** [body.split(sep)] for a non-empty separator: the pieces between the
    occurrences of [sep], found from left to right.  [skip] counts the
    characters of a matched separator still to be passed over. *)
Fixpoint split_from (sep : string) (skip : nat) (piece s : string) : list string :=
  match s with
  | "" => [piece]
  | String c rest =>
      match skip with
      | S n => split_from sep n piece rest
      | O =>
          if String.prefix sep s
          then piece :: split_from sep (String.length sep - 1) "" rest
          else split_from sep 0 (piece ++ String c "") rest
      end
  end.

Definition split (sep s : string) : list string := split_from sep 0 "" s.

(** Objects of pdf-lib are held by reference. *)
Record PDFDocument : Type := { document_ref : nat }.
Record PDFPage : Type := { page_ref : nat }.
Record PDFFont : Type := { font_ref : nat }.

(** The one member of [StandardFonts] the handler names. *)
Inductive StandardFonts : Type := Helvetica.

Record Size : Type := { width : float; height : float }.

Record DrawTextOptions : Type := {
  x : float;
  y : float;
  size : float;
  font : PDFFont;
  maxWidth : option float;
  lineHeight : option float
}.

(** The calls into pdf-lib, each of which may throw or reject, and the
    console. *)
Inductive Event : Type -> Type :=
| PDFDocument_create : Event (Result PDFDocument)
| addPage (doc : PDFDocument) (dimensions : float * float) : Event (Result PDFPage)
| getSize (page : PDFPage) : Event (Result Size)
| embedFont (doc : PDFDocument) (name : StandardFonts) : Event (Result PDFFont)
| widthOfTextAtSize (f : PDFFont) (text : string) (sz : float) : Event (Result float)
| drawText (page : PDFPage) (text : string) (options : DrawTextOptions)
    : Event (Result unit)
| save (doc : PDFDocument) : Event (Result (list Byte.byte))
| console_error (error : JsError) : Event unit.

Definition title : string := "Sample Autograph Verification Report".
Definition titleSize : float := 24%float.

(** The literal is written with doubled backslashes in the source, so
    the text holds a backslash followed by [n], not a line feed; it is
    split at that same two-character sequence. *)
Definition body_text : string :=
  "This sample report illustrates the format of your certificate.\n\nYour authentic autograph will be thoroughly analyzed by our team of experts using forensic techniques. The report includes details about ink consistency, paper age, provenance, and comparative signature analysis.\n\nEach report is digitally signed and assigned a unique verification code. Third parties can confirm authenticity using our verification page.".

Definition fontSize : float := 12%float.

Definition lines : list string := split "\n" body_text.

(** The loop over [lines], with the running [y]. *)
#[warning="-inexact-float"]
Fixpoint draw_lines (page : PDFPage) (f : PDFFont) (page_width : float)
    (ls : list string) (y0 : float) : Prog Event float :=
  match ls with
  | [] => Ret y0
  | line :: rest =>
      (await (drawText page line
                {| x := 50%float;
                   y := y0;
                   size := fontSize;
                   font := f;
                   maxWidth := Some (page_width - 100)%float;
                   lineHeight := Some (fontSize * 1.4)%float |});;
       draw_lines page f page_width rest (y0 - fontSize * 1.4)%float)%prog
  end.

Definition quote : string := String (Ascii.ascii_of_nat 34) "".

Definition pdf_headers : gmap string string :=
  {[ "Content-Type" := "application/pdf";
     "Content-Disposition" :=
       "attachment; filename=" ++ quote ++ "sample-report.pdf" ++ quote ]}.

(** The body of the [try] block.  [Buffer.from(pdfBytes)] copies the
    bytes, so the body of the response is the list [save] answered. *)
Definition generate : Prog Event NextResponse :=
  (let* pdfDoc := await PDFDocument_create in
   let* page := await (addPage pdfDoc (612, 792)%float) in
   let* dims := await (getSize page) in
   let* f := await (embedFont pdfDoc Helvetica) in
   let* titleWidth := await (widthOfTextAtSize f title titleSize) in
   await (drawText page title
            {| x := ((width dims - titleWidth) / 2)%float;
               y := (height dims - 80)%float;
               size := titleSize;
               font := f;
               maxWidth := None;
               lineHeight := None |});;
   draw_lines page f (width dims) lines (height dims - 130)%float;;
   let* pdfBytes := await (save pdfDoc) in
   Ret (new_NextResponse (BodyBytes pdfBytes)
          {| init_status := None; init_headers := Some pdf_headers |}))%prog.

(** A call into pdf-lib that threw or rejected. *)
Definition is_err {A} (r : Result A) : bool :=
  match r with Ok _ => false | Err _ => true end.

Definition failed (c : Call Event) : bool :=
  match c with
  | Called ev answer =>
      match ev in Event X return X -> bool with
      | PDFDocument_create => is_err
      | addPage _ _ => is_err
      | getSize _ => is_err
      | embedFont _ _ => is_err
      | widthOfTextAtSize _ _ _ => is_err
      | drawText _ _ _ => is_err
      | save _ => is_err
      | console_error _ => fun _ => false
      end answer
  end.

(** A response with status 200, the two headers of the download, and
    bytes for a body. *)
Definition is_pdf_response (response : NextResponse) : Prop :=
  status response = 200
  /\ headers response = pdf_headers
  /\ exists pdfBytes, body response = BodyBytes pdfBytes.

(** A run throws exactly when one of its calls into pdf-lib failed, and
    what it returns otherwise satisfies [Q]. *)
Definition sound {W A} (Q : A -> Prop) (r : Run Event W A) : Prop :=
  existsb failed (trace r) = is_err (outcome r)
  /\ forall a : A, outcome r = Ok a -> Q a.

Definition failure : NextResponse :=
  new_NextResponse (BodyText "Failed to generate report")
    {| init_status := Some 500; init_headers := None |}.

Definition GET : Prog Event NextResponse :=
  try_catch generate
    (fun error => (perform (console_error error);; Ret failure)%prog).

End ReportRoute.

(** ** A model of pdf-lib, for running the report generator

    pdf-lib is not part of this repository.  The model keeps what the
    handler can observe of it: documents live in a store and are reached
    by reference; [PDFDocument.create()] with default options stamps the
    document's information dictionary with the current time (pdf-lib sets
    [CreationDate] and [ModDate] from [new Date()], written with a
    resolution of one second); [save()] writes the file signature, the
    dates and the page content.  Font metrics and the layout of the bytes
    are stand-ins. *)
Module PdfLib.
Import ReportRoute.

Record Document : Type := {
  info_date : Z;
  page_size : option (float * float);
  content : list string
}.

Record Store : Type := {
  now : Z;                      (* [Date.now()], in milliseconds *)
  documents : list Document
}.

Definition serialise (d : Document) : list Byte.byte :=
  String.list_byte_of_string
    ("%PDF-1.7 /CreationDate (D:" ++ pretty (info_date d) ++ ") "
     ++ String.concat " " (content d)).

Definition unknown {A} : Result A := Err (Error (Some "unknown object")).

(** Half an em for every character. *)
Fixpoint text_width (text : string) (sz : float) : float :=
  match text with
  | "" => 0%float
  | String _ rest => (sz * 0.5 + text_width rest sz)%float
  end.

Definition with_document {A} (w : Store) (i : nat)
    (f : Document -> Result A * Document) : Result A * Store :=
  match documents w !! i with
  | Some d =>
      let '(r, d') := f d in
      (r, {| now := now w; documents := <[i := d']> (documents w) |})
  | None => (unknown, w)
  end.

Definition pdflib : Impl Event Store := fun X ev w =>
  match ev in Event X return X * Store with
  | PDFDocument_create =>
      (Ok {| document_ref := length (documents w) |},
       {| now := now w;
          documents := documents w ++
            [{| info_date := now w `div` 1000; page_size := None; content := [] |}] |})
  | addPage doc dimensions =>
      with_document w (document_ref doc) (fun d =>
        (Ok {| page_ref := document_ref doc |},
         {| info_date := info_date d; page_size := Some dimensions;
            content := content d |}))
  | getSize page =>
      with_document w (page_ref page) (fun d =>
        (match page_size d with
         | Some (wd, ht) => Ok {| width := wd; height := ht |}
         | None => unknown
         end, d))
  | embedFont doc _ =>
      with_document w (document_ref doc) (fun d => (Ok {| font_ref := 0 |}, d))
  | widthOfTextAtSize _ text sz =>
      (Ok (text_width text sz), w)
  | drawText page text _ =>
      with_document w (page_ref page) (fun d =>
        (Ok tt,
         {| info_date := info_date d; page_size := page_size d;
            content := content d ++ [text] |}))
  | save doc =>
      with_document w (document_ref doc) (fun d => (Ok (serialise d), d))
  | console_error _ => (tt, w)
  end.

Definition at_time (t : Z) : Store := {| now := t; documents := [] |}.

(** Two stores that hold the same documents at times within the same
    second. *)
Definition same_second (w1 w2 : Store) : Prop :=
  now w1 `div` 1000 = now w2 `div` 1000 /\ documents w1 = documents w2.

(** A pdf-lib that cannot create documents. *)
Definition broken : Impl Event unit := fun X ev w =>
  match ev in Event X return X * unit with
  | PDFDocument_create => (unknown, w)
  | addPage _ _ => (unknown, w)
  | getSize _ => (unknown, w)
  | embedFont _ _ => (unknown, w)
  | widthOfTextAtSize _ _ _ => (unknown, w)
  | drawText _ _ _ => (unknown, w)
  | save _ => (unknown, w)
  | console_error _ => (tt, w)
  end.

End PdfLib.

(** ** The verification page: [app/verify/page.tsx] *)
Module VerifyPage.
Import Stdlib.Strings.Ascii.

(** Strings stand for JavaScript strings written in UTF-8, a lone
    surrogate being written like any other code unit of its range, as
    the three bytes [ED], [A0]..[BF], [80]..[BF].  The encoding that
    [encodeURIComponent] produces works byte by byte: a byte of the
    unreserved set is kept, any other byte is written as [%] and two
    upper-case hexadecimal digits. *)
Definition unreserved (c : ascii) : bool :=
  let n := Ascii.nat_of_ascii c in
  ((65 <=? n) && (n <=? 90) || (97 <=? n) && (n <=? 122)
   || (48 <=? n) && (n <=? 57)
   || bool_decide (c ∈ String.list_ascii_of_string "-_.!~*'()"))%nat.

Definition hex_digit (n : nat) : ascii :=
  nth n (String.list_ascii_of_string "0123456789ABCDEF") "0"%char.

Definition percent_encode (c : ascii) : string :=
  let n := Ascii.nat_of_ascii c in
  String "%" (String (hex_digit (n / 16)) (String (hex_digit (n mod 16)) "")).

Fixpoint encodeURIComponent (s : string) : string :=
  match s with
  | "" => ""
  | String c rest =>
      (if unreserved c then String c "" else percent_encode c)
      ++ encodeURIComponent rest
  end.

(** A string with a lone surrogate: the byte [ED] is followed by a byte
    from [A0] on only there. *)
Fixpoint lone_surrogate (s : string) : bool :=
  match s with
  | "" => false
  | String c rest =>
      match rest with
      | "" => false
      | String d _ =>
          ((Ascii.nat_of_ascii c =? 237) && (160 <=? Ascii.nat_of_ascii d)
           && (Ascii.nat_of_ascii d <=? 191))%nat
          || lone_surrogate rest
      end
  end.

Inductive Event : Type -> Type :=
| setResult (text : string) : Event unit
| fetch (input : string) : Event (Result UploadPage.Response).

(** The call [encodeURIComponent(s)]: a [URIError] on a string with a
    lone surrogate, the encoding otherwise. *)
Definition call_encodeURIComponent (s : string) : Prog Event string :=
  if lone_surrogate s then Throw (Error (Some "URI malformed"))
  else Ret (encodeURIComponent s).

(** Truthiness of a value in a condition. *)
Definition truthy (v : JsValue) : bool :=
  match v with
  | JUndefined | JNull | JBool false | JString "" => false
  | _ => true
  end.

(** [data.name]: a [TypeError] on [null] and [undefined] (the wording of
    its message is the engine's). *)
Definition property (name : string) (data : JsValue) : Prog Event JsValue :=
  match data with
  | JUndefined | JNull => Throw (Error (Some "Cannot read properties"))
  | _ => Ret (get_property name data)
  end.

Definition settled {A} (r : Result A) : Prog Event A :=
  match r with Ok a => Ret a | Err e => Throw e end.

(** [verify], for the text [code] in the input field. *)
Definition verify (code : string) : Prog Event unit :=
  if decide (code = "") then Ret tt
  else
    (perform (setResult "Checking…");;
     try_catch
       (let* encoded := call_encodeURIComponent code in
        let* res := await (fetch ("/api/verify?code=" ++ encoded)) in
        if negb (UploadPage.ok res) then Throw (Error (Some "Network error"))
        else
        let* data := settled (UploadPage.json res) in
        let* valid := property "valid" data in
        if truthy valid
        then perform (setResult ("Valid report issued on "
                                 ++ UploadPage.to_string (get_property "issuedAt" data)))
        else perform (setResult "Invalid or unknown report code"))
       (fun err =>
          perform (setResult ("Error: " ++ default "unknown" (message err)))))%prog.

(** The texts shown and the URLs fetched during a run, in order. *)
Definition shown_result (c : Call Event) : option string :=
  match c with
  | Called ev _ =>
      match ev with
      | setResult text => Some text
      | fetch _ => None
      end
  end.

Definition results (tr : list (Call Event)) : list string := omap shown_result tr.

Definition fetched_url (c : Call Event) : option string :=
  match c with
  | Called ev _ =>
      match ev with
      | fetch input => Some input
      | setResult _ => None
      end
  end.

Definition fetched (tr : list (Call Event)) : list string := omap fetched_url tr.

(** *** The server side of the request

    The query of the URL is parsed as the platform does for
    [searchParams]: cut at every [&], empty pieces dropped, each piece cut
    at its first [=], [+] read as a space, percent escapes decoded. *)
Definition hex_value (c : ascii) : option nat :=
  let n := Ascii.nat_of_ascii c in
  (if (48 <=? n) && (n <=? 57) then Some (n - 48)
   else if (65 <=? n) && (n <=? 70) then Some (n - 55)
   else if (97 <=? n) && (n <=? 102) then Some (n - 87)
   else None)%nat.

Fixpoint percent_decode (s : string) : string :=
  match s with
  | "" => ""
  | String c rest =>
      if decide (c = "%"%char) then
        match rest with
        | String h (String l rest') =>
            match hex_value h, hex_value l with
            | Some a, Some b =>
                String (Ascii.ascii_of_nat (16 * a + b)) (percent_decode rest')
            | _, _ => String c (percent_decode rest)
            end
        | _ => String c (percent_decode rest)
        end
      else String c (percent_decode rest)
  end.

Fixpoint plus_to_space (s : string) : string :=
  match s with
  | "" => ""
  | String c rest =>
      String (if decide (c = "+"%char) then " "%char else c) (plus_to_space rest)
  end.

(** The part of [s] before the first [c] and the part after it; all of
    [s] and the empty string when [c] does not occur. *)
Fixpoint cut_at (c : ascii) (s : string) : string * string :=
  match s with
  | "" => ("", "")
  | String d rest =>
      if decide (d = c) then ("", rest)
      else let '(before, behind) := cut_at c rest in (String d before, behind)
  end.

Definition parse_pair (piece : string) : string * string :=
  let '(name, value) := cut_at "="%char piece in
  (percent_decode (plus_to_space name), percent_decode (plus_to_space value)).

Definition parse_query (query : string) : VerifyRoute.URLSearchParams :=
  parse_pair <$> filter (fun piece => piece <> "") (ReportRoute.split "&" query).

(** The request the route handler sees for a fetched URL: the path up to
    the first [?] and the parameters of the query behind it.  (The URL
    parser escapes a few more characters of the query on the way, which
    the query parser then decodes again; that detour is left out.) *)
Definition request_for (url : string) : VerifyRoute.NextRequest :=
  let '(path, query) := cut_at "?"%char url in
  {| VerifyRoute.nextUrl :=
       {| VerifyRoute.pathname := path;
          VerifyRoute.searchParams := parse_query query |} |}.

(** A network in which every fetch is answered by the verification
    route. *)
Definition network : Impl Event unit := fun X ev w =>
  match ev in Event X return X * unit with
  | setResult _ => (tt, w)
  | fetch input => (Ok (UploadPage.received (VerifyRoute.GET (request_for input))), w)
  end.

End VerifyPage.

(** ** Observations on runs, for stating what the handlers do *)
Module Observed.
Import Stdlib.Strings.Ascii.

(** The characters of a string, in order. *)
Definition chars (s : string) : list ascii := String.list_ascii_of_string s.

(** [n] invocations of the issuer one after the other, each from the
    state the one before left behind: all calls made, in order. *)
Fixpoint serve {W} (impl : Impl UploadRoute.Event W) (env : gmap string string)
    (n : nat) (w : W) : list (Call UploadRoute.Event) :=
  match n with
  | O => []
  | S n' =>
      let r := run impl (UploadRoute.POST env) w in
      trace r ++ serve impl env n' (final r)
  end.

(** The requests of the upload page with the answers they got. *)
Definition exchange (c : Call UploadPage.Event)
  : option (JsValue * UploadPage.RequestInit * Result UploadPage.Response) :=
  match c with
  | Called ev answer =>
      match ev in UploadPage.Event X
            return X -> option (JsValue * UploadPage.RequestInit
                                * Result UploadPage.Response) with
      | UploadPage.fetch input init => fun a => Some (input, init, a)
      | UploadPage.setStatus _ => fun _ => None
      end answer
  end.

Definition exchanges (tr : list (Call UploadPage.Event))
  : list (JsValue * UploadPage.RequestInit * Result UploadPage.Response) :=
  omap exchange tr.

(** The two requests the upload page can make. *)
Definition post_request : JsValue * UploadPage.RequestInit :=
  (JString "/api/upload",
   {| UploadPage.method := "POST"; UploadPage.request_body := None;
      UploadPage.request_headers := ∅ |}).

Definition put_request (url : JsValue) (file : UploadPage.File)
  : JsValue * UploadPage.RequestInit :=
  (url,
   {| UploadPage.method := "PUT"; UploadPage.request_body := Some file;
      UploadPage.request_headers :=
        {[ "Content-Type" := UploadPage.put_content_type file ]} |}).

(** The answers the verification page got to its requests. *)
Definition verify_answer (c : Call VerifyPage.Event)
  : option (Result UploadPage.Response) :=
  match c with
  | Called ev answer =>
      match ev in VerifyPage.Event X
            return X -> option (Result UploadPage.Response) with
      | VerifyPage.fetch _ => fun a => Some a
      | VerifyPage.setResult _ => fun _ => None
      end answer
  end.

Definition verify_answers (tr : list (Call VerifyPage.Event))
  : list (Result UploadPage.Response) :=
  omap verify_answer tr.

(** The error with which a call into pdf-lib threw or rejected. *)
Definition error_in {A} (r : Result A) : option JsError :=
  match r with Ok _ => None | Err e => Some e end.

Definition error_of (c : Call ReportRoute.Event) : option JsError :=
  match c with
  | Called ev answer =>
      match ev in ReportRoute.Event X return X -> option JsError with
      | ReportRoute.PDFDocument_create => error_in
      | ReportRoute.addPage _ _ => error_in
      | ReportRoute.getSize _ => error_in
      | ReportRoute.embedFont _ _ => error_in
      | ReportRoute.widthOfTextAtSize _ _ _ => error_in
      | ReportRoute.drawText _ _ _ => error_in
      | ReportRoute.save _ => error_in
      | ReportRoute.console_error _ => fun _ => None
      end answer
  end.

(** What was written to the console. *)
Definition logged (c : Call ReportRoute.Event) : option JsError :=
  match c with
  | Called ev _ =>
      match ev with
      | ReportRoute.console_error error => Some error
      | _ => None
      end
  end.

(** The texts handed to [drawText], with page and font. *)
Definition drawn (c : Call ReportRoute.Event)
  : option (ReportRoute.PDFPage * string * ReportRoute.PDFFont) :=
  match c with
  | Called ev _ =>
      match ev with
      | ReportRoute.drawText page text options =>
          Some (page, text, ReportRoute.font options)
      | _ => None
      end
  end.

(** A run that throws stopped at its last call, the only one that
    failed, and threw the error of that call; nothing was written to the
    console. *)
Definition fail_fast {W A} (r : Run ReportRoute.Event W A) : Prop :=
  omap logged (trace r) = []
  /\ match outcome r with
     | Ok _ => omap error_of (trace r) = []
     | Err e =>
         exists before c,
           trace r = (before ++ [c])%list
           /\ error_of c = Some e
           /\ omap error_of before = []
     end.

(** A run that returns made the [drawText] calls [expected], and a run
    that throws made some of them, from the first on. *)
Definition draws {W A}
    (expected : list (ReportRoute.PDFPage * string * ReportRoute.PDFFont))
    (r : Run ReportRoute.Event W A) : Prop :=
  match outcome r with
  | Ok _ => omap drawn (trace r) = expected
  | Err _ => omap drawn (trace r) `prefix_of` expected
  end.

(** A run that returns a response ended on [save] for the document
    [doc], and the body of the response is the bytes saved. *)
Definition saves {W} (doc : ReportRoute.PDFDocument)
    (r : Run ReportRoute.Event W NextResponse) : Prop :=
  match outcome r with
  | Ok response =>
      exists pdfBytes,
        last (trace r) = Some (Called (ReportRoute.save doc) (Ok pdfBytes))
        /\ body response = BodyBytes pdfBytes
  | Err _ => True
  end.

(** A run that returns [a] and leaves the state [w']. *)
Definition returns {E W A} (r : Run E W A) (a : A) (w' : W) : Prop :=
  outcome r = Ok a /\ final r = w'.

(** The PDF response with the given bytes. *)
Definition pdf_response (pdfBytes : list Byte.byte) : NextResponse :=
  {| body := BodyBytes pdfBytes; status := 200; headers := ReportRoute.pdf_headers |}.

(** The document the report handler has built in the model of pdf-lib
    when it saves, for an invocation at time [t]. *)
Definition report_document (t : Z) : PdfLib.Document :=
  {| PdfLib.info_date := t `div` 1000;
     PdfLib.page_size := Some (612, 792)%float;
     PdfLib.content := ReportRoute.title :: ReportRoute.lines |}.

(** The texts of the report, all on one page in one font. *)
Definition report_texts (page : ReportRoute.PDFPage) (f : ReportRoute.PDFFont)
  : list (ReportRoute.PDFPage * string * ReportRoute.PDFFont) :=
  (fun text => (page, text, f)) <$> ReportRoute.title :: ReportRoute.lines.

(** Pages run against scripted answers: every request takes the next
    answer of the queue, and is rejected once the queue is empty. *)
Definition next_answer (queue : list (Result UploadPage.Response))
  : Result UploadPage.Response * list (Result UploadPage.Response) :=
  (default (Err (Error None)) (head queue), tail queue).

Definition scripted_upload
  : Impl UploadPage.Event (list (Result UploadPage.Response)) := fun X ev queue =>
  match ev in UploadPage.Event X return X * list (Result UploadPage.Response) with
  | UploadPage.setStatus _ => (tt, queue)
  | UploadPage.fetch _ _ => next_answer queue
  end.

Definition scripted_verify
  : Impl VerifyPage.Event (list (Result UploadPage.Response)) := fun X ev queue =>
  match ev in VerifyPage.Event X return X * list (Result UploadPage.Response) with
  | VerifyPage.setResult _ => (tt, queue)
  | VerifyPage.fetch _ => next_answer queue
  end.

(** A response with status in the 200s and the given JSON. *)
Definition ok_json (data : JsValue) : Result UploadPage.Response :=
  Ok {| UploadPage.ok := true; UploadPage.json := Ok data |}.

End Observed.

(** * Properties *)

(** ** Running program trees *)
Section run_facts.
Context {E : Type -> Type} {W : Type} (impl : Impl E W).

Lemma outcome_after {A} (c : Call E) (r : Run E W A) :
  outcome (after c r) = outcome r.
Proof. destruct r; reflexivity. Qed.

Lemma final_after {A} (c : Call E) (r : Run E W A) :
  final (after c r) = final r.
Proof. destruct r; reflexivity. Qed.

Lemma trace_after {A} (c : Call E) (r : Run E W A) :
  trace (after c r) = c :: trace r.
Proof. destruct r; reflexivity. Qed.

Lemma run_bind {A B} (p : Prog E A) (f : A -> Prog E B) (w : W) :
  run impl (bind p f) w =
  let r := run impl p w in
  match outcome r with
  | Ok a =>
      let r' := run impl (f a) (final r) in
      mkRun (outcome r') (final r') (trace r ++ trace r')
  | Err e => mkRun (Err e) (final r) (trace r)
  end.
Proof.
  revert w; induction p as [a | e | X ev k IH]; intros w; simpl.
  - destruct (run impl (f a) w); reflexivity.
  - reflexivity.
  - destruct (impl X ev w) as [x w']; rewrite IH; simpl.
    destruct (run impl (k x) w') as [[a | e] w'' tr]; reflexivity.
Qed.

Lemma run_try_catch {A} (p : Prog E A) (h : JsError -> Prog E A) (w : W) :
  run impl (try_catch p h) w =
  let r := run impl p w in
  match outcome r with
  | Ok a => mkRun (Ok a) (final r) (trace r)
  | Err e =>
      let r' := run impl (h e) (final r) in
      mkRun (outcome r') (final r') (trace r ++ trace r')
  end.
Proof.
  revert w; induction p as [a | e | X ev k IH]; intros w; simpl.
  - reflexivity.
  - destruct (run impl (h e) w); reflexivity.
  - destruct (impl X ev w) as [x w']; rewrite IH; simpl.
    destruct (run impl (k x) w') as [[a | e] w'' tr]; reflexivity.
Qed.

Lemma run_await_bind {X B} (ev : E (Result X)) (f : X -> Prog E B) (w : W) :
  run impl (bind (await ev) f) w =
  match (impl _ ev w).1 with
  | Ok x => after (Called ev (Ok x)) (run impl (f x) (impl _ ev w).2)
  | Err e => mkRun (Err e) (impl _ ev w).2 [Called ev (Err e)]
  end.
Proof.
  simpl. destruct (impl _ ev w) as [[x | e] w']; reflexivity.
Qed.

(** Runs from related states agree on the outcome and on every call and
    answer, when the implementation respects the relation. *)
Lemma run_respects (R : W -> W -> Prop) {A} (p : Prog E A) (w1 w2 : W) :
  respects impl R -> R w1 w2 ->
  outcome (run impl p w1) = outcome (run impl p w2)
  /\ trace (run impl p w1) = trace (run impl p w2)
  /\ R (final (run impl p w1)) (final (run impl p w2)).
Proof.
  intros Himpl. revert w1 w2.
  induction p as [a | e | X ev k IH]; intros w1 w2 HR; simpl; auto.
  destruct (Himpl X ev w1 w2 HR) as [Hans Hnext].
  destruct (impl X ev w1) as [x1 w1'], (impl X ev w2) as [x2 w2'].
  simpl in Hans, Hnext; subst x2.
  rewrite !outcome_after, !trace_after, !final_after.
  destruct (IH x1 w1' w2' Hnext) as (Ho & Ht & Hf).
  rewrite Ht; auto.
Qed.
End run_facts.

(** ** Verification lookup *)

(** C1. A request whose [code] is the literal [VALID123] is answered with
    the JSON object [{ valid: true, issuedAt: "2024-01-01" }] (status
    200), and any two such requests get the same response, whatever else
    they carry. *)
Theorem verify_accepts_literal (req : VerifyRoute.NextRequest) :
  VerifyRoute.get "code" (VerifyRoute.searchParams (VerifyRoute.nextUrl req))
    = Some "VALID123" ->
  VerifyRoute.GET req =
    {| body := BodyJson (JObject {[ "valid" := JBool true;
                                   "issuedAt" := JString "2024-01-01" ]});
       status := 200; headers := ∅ |}
  /\ forall req' : VerifyRoute.NextRequest,
       VerifyRoute.get "code" (VerifyRoute.searchParams (VerifyRoute.nextUrl req'))
         = Some "VALID123" ->
       VerifyRoute.GET req' = VerifyRoute.GET req.
Proof.
  intros Hcode. unfold VerifyRoute.GET. split.
  - rewrite Hcode. rewrite decide_True by reflexivity. reflexivity.
  - intros req' Hcode'. rewrite Hcode, Hcode'. reflexivity.
Qed.

Lemma verify_accepts_literal_witness :
  let req := VerifyRoute.request [("lang", "en"); ("code", "VALID123")] in
  VerifyRoute.GET req =
    {| body := BodyJson (JObject {[ "valid" := JBool true;
                                   "issuedAt" := JString "2024-01-01" ]});
       status := 200; headers := ∅ |}
  /\ forall req' : VerifyRoute.NextRequest,
       VerifyRoute.get "code" (VerifyRoute.searchParams (VerifyRoute.nextUrl req'))
         = Some "VALID123" ->
       VerifyRoute.GET req' = VerifyRoute.GET req.
Proof.
  apply (verify_accepts_literal
           (VerifyRoute.request [("lang", "en"); ("code", "VALID123")])).
  reflexivity.
Defined.

(** C2. A request whose [code] is any other string, such as [valid123],
    is answered with [{ valid: false }], an object without an [issuedAt]
    property. *)
Theorem verify_rejects_other_codes (req : VerifyRoute.NextRequest) (code : string) :
  VerifyRoute.get "code" (VerifyRoute.searchParams (VerifyRoute.nextUrl req))
    = Some code ->
  code <> "VALID123" ->
  exists fields : gmap string JsValue,
    VerifyRoute.GET req =
      {| body := BodyJson (JObject fields); status := 200; headers := ∅ |}
    /\ fields = {[ "valid" := JBool false ]}
    /\ fields !! "valid" = Some (JBool false)
    /\ fields !! "issuedAt" = None.
Proof.
  intros Hcode Hne. exists {[ "valid" := JBool false ]}.
  unfold VerifyRoute.GET. rewrite Hcode.
  rewrite decide_False by congruence.
  repeat split; reflexivity.
Qed.

Lemma verify_rejects_other_codes_witness :
  exists fields : gmap string JsValue,
    VerifyRoute.GET (VerifyRoute.request [("code", "valid123")]) =
      {| body := BodyJson (JObject fields); status := 200; headers := ∅ |}
    /\ fields = {[ "valid" := JBool false ]}
    /\ fields !! "valid" = Some (JBool false)
    /\ fields !! "issuedAt" = None.
Proof.
  apply (verify_rejects_other_codes
           (VerifyRoute.request [("code", "valid123")]) "valid123").
  - reflexivity.
  - discriminate.
Defined.

(** C9. A request without any [code] parameter is answered like one with
    a wrong code: [{ valid: false }] with status 200, not an error. *)
Theorem verify_missing_code_is_invalid (req : VerifyRoute.NextRequest) :
  VerifyRoute.get "code" (VerifyRoute.searchParams (VerifyRoute.nextUrl req)) = None ->
  VerifyRoute.GET req =
    {| body := BodyJson (JObject {[ "valid" := JBool false ]});
       status := 200; headers := ∅ |}.
Proof.
  intros Hcode. unfold VerifyRoute.GET. rewrite Hcode.
  rewrite decide_False by discriminate. reflexivity.
Qed.

Lemma verify_missing_code_is_invalid_witness :
  VerifyRoute.GET (VerifyRoute.request []) =
    {| body := BodyJson (JObject {[ "valid" := JBool false ]});
       status := 200; headers := ∅ |}.
Proof.
  apply (verify_missing_code_is_invalid (VerifyRoute.request [])).
  reflexivity.
Defined.

(** ** Upload-URL issuer and uploader *)

(** Destructs the answer the implementation gives the next call. *)
Ltac next_call impl :=
  match goal with
  | |- context [impl ?X ?ev ?w] => destruct (impl X ev w) as [? ?]; simpl
  end.

(** The issuer responds whenever the presigner resolves, and throws
    whenever it rejects. *)
Lemma issuer_outcome (env : gmap string string) {W} (impl : Impl UploadRoute.Event W)
    (w : W) :
  let uuid := (impl _ UploadRoute.crypto_randomUUID w).1 in
  let command :=
    {| UploadRoute.Bucket := env !! "AWS_BUCKET_NAME";
       UploadRoute.Key := "uploads/" ++ uuid;
       UploadRoute.ContentType := "application/octet-stream" |} in
  let request :=
    UploadRoute.getSignedUrl (UploadRoute.s3 env) command
      {| UploadRoute.expiresIn := 60 |} in
  let signed := (impl _ request (impl _ UploadRoute.crypto_randomUUID w).2).1 in
  outcome (run impl (UploadRoute.POST env) w) =
    match signed with
    | Ok url => Ok (NextResponse_json (JObject {[ "uploadUrl" := JString url ]}))
    | Err e => Err e
    end
  /\ trace (run impl (UploadRoute.POST env) w) =
       [Called UploadRoute.crypto_randomUUID uuid; Called request signed].
Proof.
  unfold UploadRoute.POST; simpl.
  destruct (impl _ UploadRoute.crypto_randomUUID w) as [uuid w1]; simpl.
  next_call impl.
  match goal with |- context [match ?r with Ok _ => _ | Err _ => _ end] =>
    destruct r end; split; reflexivity.
Qed.

(** C3. Whenever the issuer responds, the JSON object it sends has an
    [uploadUrl] property and no [key] property, so the uploader, which
    destructures [uploadUrl] and [key] from it, gets [undefined] for
    [key]. *)
Theorem issuer_response_has_no_key (env : gmap string string) {W}
    (impl : Impl UploadRoute.Event W) (w : W) (response : NextResponse) :
  outcome (run impl (UploadRoute.POST env) w) = Ok response ->
  exists (url : string) (fields : gmap string JsValue),
    body response = BodyJson (JObject fields)
    /\ fields !! "uploadUrl" = Some (JString url)
    /\ fields !! "key" = None
    /\ UploadPage.json (UploadPage.received response) = Ok (JObject fields)
    /\ UploadPage.destructure (JObject fields) = Ret (JString url, JUndefined).
Proof.
  destruct (issuer_outcome env impl w) as [Hout _]; cbv zeta in Hout.
  rewrite Hout; clear Hout.
  match goal with |- context [match ?r with Ok _ => _ | Err _ => _ end] =>
    destruct r as [url | e] end; [| discriminate].
  intros [= <-]. exists url, {[ "uploadUrl" := JString url ]}.
  repeat split; reflexivity.
Qed.

Lemma issuer_response_has_no_key_witness :
  exists (url : string) (fields : gmap string JsValue),
    body (NextResponse_json
            (JObject {[ "uploadUrl" :=
                          JString "https://autographs.s3.amazonaws.com/uploads/u-1" ]}))
      = BodyJson (JObject fields)
    /\ fields !! "uploadUrl" = Some (JString url)
    /\ fields !! "key" = None
    /\ UploadPage.json
         (UploadPage.received
            (NextResponse_json
               (JObject {[ "uploadUrl" :=
                             JString "https://autographs.s3.amazonaws.com/uploads/u-1" ]})))
       = Ok (JObject fields)
    /\ UploadPage.destructure (JObject fields) = Ret (JString url, JUndefined).
Proof.
  apply (issuer_response_has_no_key UploadRoute.demo_env UploadRoute.scripted
           (UploadRoute.demo_world ["u-1"])).
  vm_compute. reflexivity.
Defined.

(** The page, run against the issuer, ends by showing a key that reads
    [undefined]. *)
Example upload_page_shows_undefined_key :
  UploadPage.statuses
    (trace (run UploadPage.network (UploadPage.handleUpload (Some UploadPage.png))
              (UploadPage.demo_network ["u-1"])))
  = ["Generating upload URL…"; "Uploading to secure storage…";
     "Upload complete! Your file key is undefined"].
Proof. vm_compute. reflexivity. Qed.

(** C5. Every invocation of the issuer makes exactly one presign request,
    and that request asks for an expiry of 60 seconds, whatever the
    environment, the generator and the presigner do; the handler has no
    parameter through which a caller could change it. *)
Theorem issuer_expiry_is_60 (env : gmap string string) {W}
    (impl : Impl UploadRoute.Event W) (w : W) :
  UploadRoute.requested_expiries (trace (run impl (UploadRoute.POST env) w)) = [60].
Proof.
  destruct (issuer_outcome env impl w) as [_ Htrace]; cbv zeta in Htrace.
  rewrite Htrace. reflexivity.
Qed.

Lemma upload_key_injective (uuid1 uuid2 : string) :
  "uploads/" ++ uuid1 = "uploads/" ++ uuid2 -> uuid1 = uuid2.
Proof.
  intros Heq. cbv [String.append] in Heq. fold String.append in Heq.
  injection Heq. auto.
Qed.

(** C6. In any two invocations of the issuer, each draws one identifier
    and asks a permission for the one key ["uploads/" ++ uuid]; the two
    keys differ exactly when the two identifiers differ. *)
Theorem issued_keys_distinct_iff_uuids_distinct (env : gmap string string) {W}
    (impl : Impl UploadRoute.Event W) (w1 w2 : W) :
  exists uuid1 uuid2 key1 key2 : string,
    UploadRoute.generated_uuids (trace (run impl (UploadRoute.POST env) w1)) = [uuid1]
    /\ UploadRoute.generated_uuids (trace (run impl (UploadRoute.POST env) w2)) = [uuid2]
    /\ UploadRoute.issued_keys (trace (run impl (UploadRoute.POST env) w1)) = [key1]
    /\ UploadRoute.issued_keys (trace (run impl (UploadRoute.POST env) w2)) = [key2]
    /\ key1 = "uploads/" ++ uuid1
    /\ key2 = "uploads/" ++ uuid2
    /\ (uuid1 <> uuid2 <-> key1 <> key2).
Proof.
  destruct (issuer_outcome env impl w1) as [_ Htrace1].
  destruct (issuer_outcome env impl w2) as [_ Htrace2].
  cbv zeta in Htrace1, Htrace2. rewrite Htrace1, Htrace2.
  eexists _, _, _, _. repeat split; try reflexivity.
  - intros Hne Heq. apply Hne. revert Heq. apply upload_key_injective.
  - intros Hne Heq. apply Hne. congruence.
Qed.

(** Follows a run through its next call, whatever the answer. *)
Ltac next impl := next_call impl; rewrite ?trace_after, ?outcome_after; simpl.

Ltac settle impl :=
  repeat first
    [ next impl
    | match goal with
      | |- context [match ?r with Ok _ => _ | Err _ => _ end] => destruct r; simpl
      | |- context [UploadPage.ok ?res] => destruct (UploadPage.ok res); simpl
      end ].

(** A run of the uploader for a file makes no PUT at all (when issuing the
    URL failed) or exactly one, which carries the file and the content
    type computed from it. *)
Lemma uploader_put_requests (file : UploadPage.File) {W}
    (impl : Impl UploadPage.Event W) (w : W) :
  let sent :=
    UploadPage.put_requests
      (trace (run impl (UploadPage.handleUpload (Some file)) w)) in
  sent = []
  \/ exists url : JsValue,
       sent = [(url, {| UploadPage.method := "PUT";
                        UploadPage.request_body := Some file;
                        UploadPage.request_headers :=
                          {[ "Content-Type" := UploadPage.put_content_type file ]} |})].
Proof.
  unfold UploadPage.handleUpload, perform, await; simpl.
  next impl. next impl.
  destruct r as [res | e]; simpl; [| settle impl; auto].
  destruct (UploadPage.ok res); simpl; [| settle impl; auto].
  destruct (UploadPage.json res) as [data | e]; simpl; [| settle impl; auto].
  destruct data; simpl; settle impl; eauto.
Qed.

(** C8. Every PUT the uploader makes for a selected file sends that file
    with a [Content-Type] header equal to the file's declared type when
    that is not empty, and to [application/octet-stream] when it is; and
    against the issuer the uploader does make that PUT, to the URL it was
    given. *)
Theorem uploader_put_content_type (file : UploadPage.File) :
  (forall {W} (impl : Impl UploadPage.Event W) (w : W),
     Forall (fun '(_, init) =>
               UploadPage.request_body init = Some file
               /\ exists content_type : string,
                    UploadPage.request_headers init !! "Content-Type"
                      = Some content_type
                    /\ (UploadPage.type file <> "" ->
                        content_type = UploadPage.type file)
                    /\ (UploadPage.type file = "" ->
                        content_type = "application/octet-stream"))
       (UploadPage.put_requests
          (trace (run impl (UploadPage.handleUpload (Some file)) w))))
  /\ exists init : UploadPage.RequestInit,
       UploadPage.put_requests
         (trace (run UploadPage.network (UploadPage.handleUpload (Some file))
                   (UploadPage.demo_network ["u-1"])))
       = [(JString "https://autographs.s3.amazonaws.com/uploads/u-1", init)].
Proof.
  split.
  - intros W impl w.
    destruct (uploader_put_requests file impl w) as [-> | [url ->]];
      constructor; [| constructor].
    split; [reflexivity |].
    exists (UploadPage.put_content_type file). split; [reflexivity |].
    unfold UploadPage.put_content_type, string_or.
    destruct (decide (UploadPage.type file = "")); split; congruence.
  - eexists. vm_compute. reflexivity.
Qed.

(** C10. Every presign request of the issuer binds the content type
    [application/octet-stream]; the handler is given no file.  The
    uploader's PUT can carry another one: for a PNG file it sends
    [image/png] to the URL signed for [application/octet-stream]. *)
Theorem signed_content_type_is_constant :
  (forall (env : gmap string string) {W} (impl : Impl UploadRoute.Event W) (w : W),
     UploadRoute.signed_content_types (trace (run impl (UploadRoute.POST env) w))
     = ["application/octet-stream"])
  /\ exists (url : JsValue) (init : UploadPage.RequestInit),
       UploadPage.put_requests
         (trace (run UploadPage.network
                   (UploadPage.handleUpload (Some UploadPage.png))
                   (UploadPage.demo_network ["u-1"])))
       = [(url, init)]
       /\ UploadPage.request_headers init !! "Content-Type" = Some "image/png"
       /\ UploadRoute.signed_content_types
            (trace (run UploadRoute.scripted (UploadRoute.POST UploadRoute.demo_env)
                      (UploadRoute.demo_world ["u-1"])))
          = ["application/octet-stream"].
Proof.
  split.
  - intros env W impl w.
    destruct (issuer_outcome env impl w) as [_ Htrace]; cbv zeta in Htrace.
    rewrite Htrace. reflexivity.
  - eexists _, _. vm_compute. repeat split; reflexivity.
Qed.

(** ** Report generator *)
Section report_facts.
Import ReportRoute.
Context {W : Type} (impl : Impl Event W).

Lemma sound_ret {A} (Q : A -> Prop) (a : A) (w : W) :
  Q a -> sound Q (run impl (Ret a) w).
Proof. intros HQ. split; [reflexivity |]. intros a' [= <-]. exact HQ. Qed.

Lemma sound_await_bind {X B} (ev : Event (Result X)) (f : X -> Prog Event B)
    (Q : B -> Prop) (w : W) :
  (forall x, failed (Called ev (Ok x)) = false) ->
  (forall e, failed (Called ev (Err e)) = true) ->
  (forall x w', sound Q (run impl (f x) w')) ->
  sound Q (run impl (bind (await ev) f) w).
Proof.
  intros Hok Herr Hrest. rewrite run_await_bind.
  destruct (impl _ ev w) as [[x | e] w']; cbn [fst snd].
  - destruct (Hrest x w') as [Hfailed HQ].
    split; rewrite ?outcome_after, ?trace_after; [| exact HQ].
    cbn [existsb]. rewrite Hok. exact Hfailed.
  - split; [| discriminate]. cbn [trace outcome existsb is_err].
    rewrite Herr. reflexivity.
Qed.

Lemma sound_bind {A B} (p : Prog Event A) (f : A -> Prog Event B)
    (P : A -> Prop) (Q : B -> Prop) (w : W) :
  sound P (run impl p w) ->
  (forall a w', sound Q (run impl (f a) w')) ->
  sound Q (run impl (bind p f) w).
Proof.
  intros [Hp _] Hrest. rewrite run_bind; cbv zeta.
  destruct (run impl p w) as [[a | e] w' tr]; cbn [outcome final trace] in *.
  - destruct (Hrest a w') as [Hfailed HQ]. split; cbn [outcome trace]; [| exact HQ].
    rewrite existsb_app, Hp. exact Hfailed.
  - split; [exact Hp | discriminate].
Qed.

(** The loop throws exactly when one of its calls failed. *)
Lemma draw_lines_sound page f page_width ls y0 (w : W) :
  sound (fun _ => True) (run impl (draw_lines page f page_width ls y0) w).
Proof.
  revert y0 w; induction ls as [| line rest IH]; intros y0 w.
  - apply sound_ret. exact I.
  - cbn [draw_lines]. apply sound_await_bind; [reflexivity | reflexivity |].
    intros _ w'. apply IH.
Qed.

(** What the [try] block returns is the PDF response. *)
Lemma generate_sound (w : W) : sound is_pdf_response (run impl generate w).
Proof.
  unfold generate.
  apply sound_await_bind; [reflexivity | reflexivity |]; intros pdfDoc w1.
  apply sound_await_bind; [reflexivity | reflexivity |]; intros page w2.
  apply sound_await_bind; [reflexivity | reflexivity |]; intros dims w3.
  apply sound_await_bind; [reflexivity | reflexivity |]; intros f w4.
  apply sound_await_bind; [reflexivity | reflexivity |]; intros titleWidth w5.
  apply sound_await_bind; [reflexivity | reflexivity |]; intros _ w6.
  eapply sound_bind; [apply draw_lines_sound |]; intros _ w7.
  apply sound_await_bind; [reflexivity | reflexivity |]; intros pdfBytes w8.
  apply sound_ret. repeat split. exists pdfBytes; reflexivity.
Qed.

(** The handler always responds: with the failure response when the
    [try] block threw, and with what the block returned otherwise. *)
Lemma GET_outcome (w : W) :
  exists response : NextResponse,
    outcome (run impl GET w) = Ok response
    /\ if existsb failed (trace (run impl GET w))
       then response = failure
       else is_pdf_response response.
Proof.
  unfold GET. rewrite run_try_catch; cbv zeta.
  destruct (generate_sound w) as [Hfailed Hpdf].
  destruct (run impl generate w) as [[response | e] w' tr];
    cbn [outcome final trace is_err] in *.
  - exists response. rewrite Hfailed.
    split; [reflexivity | apply Hpdf; reflexivity].
  - exists failure. unfold perform; simpl.
    destruct (impl _ _ w') as [[] w'']; simpl.
    rewrite existsb_app, Hfailed. split; reflexivity.
Qed.
End report_facts.

(** Both kinds of run exist: with the model of pdf-lib the handler
    answers 200, and with a pdf-lib that cannot create a document it
    answers 500. *)
Example report_succeeds_with_pdflib :
  exists response,
    outcome (run PdfLib.pdflib ReportRoute.GET (PdfLib.at_time 1700000000000))
      = Ok response
    /\ status response = 200
    /\ existsb ReportRoute.failed
         (trace (run PdfLib.pdflib ReportRoute.GET (PdfLib.at_time 1700000000000)))
       = false.
Proof. eexists. vm_compute. repeat split; reflexivity. Qed.

Example report_fails_with_broken_pdflib :
  outcome (run PdfLib.broken ReportRoute.GET tt) = Ok ReportRoute.failure
  /\ status ReportRoute.failure = 500
  /\ existsb ReportRoute.failed (trace (run PdfLib.broken ReportRoute.GET tt)) = true.
Proof. vm_compute. repeat split; reflexivity. Qed.

(** C4 as stated fails: any two successful invocations would return equal
    bodies, but the library stamps a new document with the time, and one
    second apart the two reports differ. *)
Lemma report_bytes_differ_across_seconds :
  exists response1 response2 : NextResponse,
    outcome (run PdfLib.pdflib ReportRoute.GET (PdfLib.at_time 1700000000000))
      = Ok response1
    /\ outcome (run PdfLib.pdflib ReportRoute.GET (PdfLib.at_time 1700000001000))
       = Ok response2
    /\ status response1 = 200
    /\ status response2 = 200
    /\ body response1 <> body response2.
Proof.
  eexists _, _.
  split; [vm_compute; reflexivity |].
  split; [vm_compute; reflexivity |].
  split; [reflexivity |]. split; [reflexivity |].
  cbn [body]. intros Heq. discriminate Heq.
Qed.

(** The model of pdf-lib answers alike from stores that hold the same
    documents within the same second. *)
Lemma pdflib_respects_same_second : respects PdfLib.pdflib PdfLib.same_second.
Proof.
  assert (Hdoc : forall A now1 now2 docs i
                   (f : PdfLib.Document -> Result A * PdfLib.Document),
             now1 `div` 1000 = now2 `div` 1000 ->
             let r1 := PdfLib.with_document
                         {| PdfLib.now := now1; PdfLib.documents := docs |} i f in
             let r2 := PdfLib.with_document
                         {| PdfLib.now := now2; PdfLib.documents := docs |} i f in
             r1.1 = r2.1 /\ PdfLib.same_second r1.2 r2.2).
  { intros A now1 now2 docs i f Hnow. unfold PdfLib.with_document, PdfLib.same_second.
    simpl. destruct (docs !! i) as [d |]; [destruct (f d) |]; simpl; auto. }
  intros X ev [now1 docs1] [now2 docs2] [Hnow Hdocs].
  simpl in Hnow, Hdocs. subst docs2.
  destruct ev; unfold PdfLib.pdflib; try (apply Hdoc; exact Hnow);
    unfold PdfLib.same_second; simpl; rewrite ?Hnow; auto.
Qed.



(** * Further properties of the handlers *)

(** ** Verification lookup *)

(** X4. Every request is answered with status 200 and a JSON object with
    a boolean [valid]; [valid] is true exactly when the first [code]
    parameter is [VALID123], and [issuedAt] is present exactly when
    [valid] is true. *)
Theorem verify_response_shape (req : VerifyRoute.NextRequest) :
  exists (valid : bool) (fields : gmap string JsValue),
    VerifyRoute.GET req =
      {| body := BodyJson (JObject fields); status := 200; headers := ∅ |}
    /\ fields !! "valid" = Some (JBool valid)
    /\ (valid = true <->
        VerifyRoute.get "code" (VerifyRoute.searchParams (VerifyRoute.nextUrl req))
          = Some "VALID123")
    /\ (is_Some (fields !! "issuedAt") <-> valid = true).
Proof.
  unfold VerifyRoute.GET.
  destruct (decide (VerifyRoute.get "code"
                      (VerifyRoute.searchParams (VerifyRoute.nextUrl req))
                    = Some "VALID123")) as [Hcode | Hcode].
  - exists true. eexists. split; [reflexivity |]. split; [reflexivity |].
    split; [tauto |]. split; [reflexivity |]. intros _. eexists. reflexivity.
  - exists false. eexists. split; [reflexivity |]. split; [reflexivity |].
    split; [split; [discriminate | contradiction] |].
    split; [| discriminate]. intros [v Hv]. vm_compute in Hv. discriminate Hv.
Qed.

(** ** Upload-URL issuer *)



(** X2. When the issuer responds, the [uploadUrl] it sends is the URL the
    presigner returned for the request it made: client region and bucket
    from the environment, and the key ["uploads/" ++ uuid] for the
    identifier just drawn. *)
Theorem issuer_returns_presigned_url (env : gmap string string) {W}
    (impl : Impl UploadRoute.Event W) (w : W) (response : NextResponse) :
  outcome (run impl (UploadRoute.POST env) w) = Ok response ->
  exists uuid url : string,
    trace (run impl (UploadRoute.POST env) w) =
      [Called UploadRoute.crypto_randomUUID uuid;
       Called (UploadRoute.getSignedUrl
                 {| UploadRoute.region := env !! "AWS_REGION" |}
                 {| UploadRoute.Bucket := env !! "AWS_BUCKET_NAME";
                    UploadRoute.Key := "uploads/" ++ uuid;
                    UploadRoute.ContentType := "application/octet-stream" |}
                 {| UploadRoute.expiresIn := 60 |})
              (Ok url)]
    /\ response = NextResponse_json (JObject {[ "uploadUrl" := JString url ]}).
Proof.
  destruct (issuer_outcome env impl w) as [Hout Htrace]; cbv zeta in Hout, Htrace.
  rewrite Hout, Htrace; clear Hout Htrace.
  match goal with |- context [match ?r with Ok _ => _ | Err _ => _ end] =>
    destruct r as [url | e'] end; [| discriminate].
  intros [= <-]. eexists _, url. split; reflexivity.
Qed.

Lemma issuer_returns_presigned_url_witness :
  exists uuid url : string,
    trace (run UploadRoute.scripted (UploadRoute.POST UploadRoute.demo_env)
             (UploadRoute.demo_world ["u-1"])) =
      [Called UploadRoute.crypto_randomUUID uuid;
       Called (UploadRoute.getSignedUrl
                 {| UploadRoute.region := UploadRoute.demo_env !! "AWS_REGION" |}
                 {| UploadRoute.Bucket := UploadRoute.demo_env !! "AWS_BUCKET_NAME";
                    UploadRoute.Key := "uploads/" ++ uuid;
                    UploadRoute.ContentType := "application/octet-stream" |}
                 {| UploadRoute.expiresIn := 60 |})
              (Ok url)]
    /\ NextResponse_json
         (JObject {[ "uploadUrl" :=
                       JString "https://autographs.s3.amazonaws.com/uploads/u-1" ]})
       = NextResponse_json (JObject {[ "uploadUrl" := JString url ]}).
Proof.
  apply (issuer_returns_presigned_url UploadRoute.demo_env UploadRoute.scripted
           (UploadRoute.demo_world ["u-1"])).
  vm_compute. reflexivity.
Defined.

(** X3. Over any number of invocations served one after the other, every
    invocation asks a permission for exactly one key, the keys are the
    identifiers drawn, each behind ["uploads/"], and the keys are pairwise
    distinct exactly when the identifiers are: the handler neither
    repairs a repeated identifier nor introduces a collision. *)
Theorem served_keys_unique_iff_uuids_unique (env : gmap string string) {W}
    (impl : Impl UploadRoute.Event W) (n : nat) (w : W) :
  let tr := Observed.serve impl env n w in
  UploadRoute.issued_keys tr
    = (fun uuid => "uploads/" ++ uuid) <$> UploadRoute.generated_uuids tr
  /\ length (UploadRoute.issued_keys tr) = n
  /\ (NoDup (UploadRoute.issued_keys tr) <-> NoDup (UploadRoute.generated_uuids tr)).
Proof.
  cbv zeta.
  assert (Hkeys : forall n w,
             UploadRoute.issued_keys (Observed.serve impl env n w)
             = (fun uuid => "uploads/" ++ uuid)
                 <$> UploadRoute.generated_uuids (Observed.serve impl env n w)
             /\ length (UploadRoute.issued_keys (Observed.serve impl env n w)) = n).
  { clear n w. induction n as [| n IH]; intros w; [split; reflexivity |].
    cbn [Observed.serve].
    destruct (issuer_outcome env impl w) as [_ Htrace]; cbv zeta in Htrace.
    rewrite Htrace; clear Htrace.
    destruct (IH (final (run impl (UploadRoute.POST env) w))) as [IHk IHl].
    unfold UploadRoute.issued_keys, UploadRoute.presign_requests,
      UploadRoute.generated_uuids in *.
    cbn [app omap list_omap UploadRoute.presign_request UploadRoute.generated_uuid
         fmap list_fmap UploadRoute.Key length].
    split; [rewrite IHk | rewrite IHl]; reflexivity. }
  destruct (Hkeys n w) as [Hk Hl]. split; [exact Hk |]. split; [exact Hl |].
  rewrite Hk. apply (NoDup_fmap (String.app "uploads/")).
Qed.

(** ** Uploader *)

Ltac step impl :=
  next impl; repeat match goal with u : unit |- _ => destruct u end.

(** Every run of the uploader for a file, by the answers its requests
    got: the requests made and the status texts shown. *)
Lemma handleUpload_cases (file : UploadPage.File) {W}
    (impl : Impl UploadPage.Event W) (w : W) :
  let r := run impl (UploadPage.handleUpload (Some file)) w in
  let sent := Observed.exchanges (trace r) in
  let shown := UploadPage.statuses (trace r) in
  let report (e : JsError) := "Error: " ++ default "unknown" (message e) in
  outcome r = Ok tt
  /\ ((exists e,
         sent = [(Observed.post_request, Err e)]
         /\ shown = ["Generating upload URL…"; report e])
      \/ (exists res,
            sent = [(Observed.post_request, Ok res)]
            /\ UploadPage.ok res = false
            /\ shown = ["Generating upload URL…"; "Error: Failed to get upload URL"])
      \/ (exists res e,
            sent = [(Observed.post_request, Ok res)]
            /\ UploadPage.ok res = true
            /\ UploadPage.json res = Err e
            /\ shown = ["Generating upload URL…"; report e])
      \/ (exists res data,
            sent = [(Observed.post_request, Ok res)]
            /\ UploadPage.ok res = true
            /\ UploadPage.json res = Ok data
            /\ (data = JUndefined \/ data = JNull)
            /\ shown = ["Generating upload URL…";
                        "Error: Cannot destructure property 'uploadUrl'"])
      \/ (exists res data answer,
            sent = [(Observed.post_request, Ok res);
                    (Observed.put_request (get_property "uploadUrl" data) file, answer)]
            /\ UploadPage.ok res = true
            /\ UploadPage.json res = Ok data
            /\ data <> JUndefined /\ data <> JNull
            /\ shown = ["Generating upload URL…"; "Uploading to secure storage…";
                        match answer with
                        | Err e => report e
                        | Ok stored =>
                            if UploadPage.ok stored
                            then "Upload complete! Your file key is "
                                 ++ UploadPage.to_string (get_property "key" data)
                            else "Error: Upload failed"
                        end])).
Proof.
  unfold UploadPage.handleUpload, perform, await; simpl.
  step impl. step impl.
  destruct r as [res | e]; simpl.
  2:{ step impl. split; [reflexivity |]. left. eauto. }
  destruct (UploadPage.ok res) eqn:Hok; simpl.
  2:{ step impl. split; [reflexivity |]. right; left. eauto. }
  destruct (UploadPage.json res) as [data | e] eqn:Hjson; simpl.
  2:{ step impl. split; [reflexivity |]. do 2 right; left. eauto 10. }
  assert (Hdata :
            (data = JUndefined \/ data = JNull)
            /\ UploadPage.destructure data
               = Throw (Error (Some "Cannot destructure property 'uploadUrl'"))
            \/ data <> JUndefined /\ data <> JNull
               /\ UploadPage.destructure data
                  = Ret (get_property "uploadUrl" data, get_property "key" data)).
  { destruct data; auto; right; repeat split; discriminate. }
  destruct Hdata as [[Hnull ->] | (Hundefined & Hnotnull & ->)]; simpl.
  { step impl. split; [reflexivity |]. do 3 right; left. eauto 10. }
  step impl. step impl.
  match goal with r : Result UploadPage.Response |- _ =>
    destruct r as [stored | e]; simpl;
    [destruct (UploadPage.ok stored) eqn:Hstored; simpl |]
  end; step impl; (split; [reflexivity |]); do 4 right;
    eexists res, data, _; (split; [reflexivity |]);
    repeat split; rewrite ?Hstored; auto.
Qed.

(** X5. The uploader never rejects.  Without a file it makes no call at
    all; with a file it shows [Generating upload URL…] first and always
    ends on a verdict, either [Upload complete! Your file key is …] or
    [Error: …]. *)
Theorem uploader_never_rejects (file : option UploadPage.File) {W}
    (impl : Impl UploadPage.Event W) (w : W) :
  outcome (run impl (UploadPage.handleUpload file) w) = Ok tt
  /\ match file with
     | None => trace (run impl (UploadPage.handleUpload file) w) = []
     | Some _ =>
         exists verdict : string,
           (UploadPage.statuses (trace (run impl (UploadPage.handleUpload file) w))
              = ["Generating upload URL…"; verdict]
            \/ UploadPage.statuses (trace (run impl (UploadPage.handleUpload file) w))
              = ["Generating upload URL…"; "Uploading to secure storage…"; verdict])
           /\ ((exists key, verdict = "Upload complete! Your file key is " ++ key)
               \/ (exists reason, verdict = "Error: " ++ reason))
     end.
Proof.
  destruct file as [file |]; [| split; reflexivity].
  destruct (handleUpload_cases file impl w) as [Hout Hcases]; cbv zeta in Hcases.
  split; [exact Hout |].
  destruct Hcases as
    [(e & _ & ->) | [(res & _ & _ & ->) | [(res & e & _ & _ & _ & ->)
    | [(res & data & _ & _ & _ & _ & ->) | (res & data & answer & _ & _ & _ & _ & _ & ->)]]]];
    eexists; (split; [first [left; reflexivity | right; reflexivity] |]).
  - right. eexists. reflexivity.
  - right. eexists. reflexivity.
  - right. eexists. reflexivity.
  - right. eexists. reflexivity.
  - destruct answer as [stored | e]; [destruct (UploadPage.ok stored) |].
    + left. eexists. reflexivity.
    + right. eexists. reflexivity.
    + right. eexists. reflexivity.
Qed.

(** X6. For a selected file the uploader first asks [/api/upload] by a
    POST without body and without headers, so the POST never carries the
    file, and then makes at most one further request, the PUT of the
    file to whatever the [uploadUrl] property of the issuer's JSON holds.
    The page does not restrict that target: when the issuer answers with
    the URL [/api/upload], the file is PUT to the application server. *)
Theorem uploader_requests (file : UploadPage.File) {W}
    (impl : Impl UploadPage.Event W) (w : W) :
  let sent :=
    Observed.exchanges (trace (run impl (UploadPage.handleUpload (Some file)) w)) in
  ((exists answer, sent = [(Observed.post_request, answer)])
   \/ (exists res data answer,
         sent = [(Observed.post_request, Ok res);
                 (Observed.put_request (get_property "uploadUrl" data) file, answer)]
         /\ UploadPage.json res = Ok data))
  /\ UploadPage.request_body Observed.post_request.2 = None
  /\ UploadPage.request_headers Observed.post_request.2 = ∅
  /\ fst <$> Observed.exchanges
       (trace (run Observed.scripted_upload (UploadPage.handleUpload (Some file))
                 [Observed.ok_json (JObject {[ "uploadUrl" := JString "/api/upload" ]});
                  Observed.ok_json JNull]))
     = [Observed.post_request; Observed.put_request (JString "/api/upload") file].
Proof.
  destruct (handleUpload_cases file impl w) as [_ Hcases]; cbv zeta in Hcases.
  cbv zeta. split; [| repeat split; vm_compute; reflexivity].
  destruct Hcases as
    [(e & -> & _) | [(res & -> & _) | [(res & e & -> & _)
    | [(res & data & -> & _) | (res & data & answer & -> & _ & Hjson & _)]]]];
    [left; eexists; reflexivity .. |].
  right. exists res, data, answer. split; [reflexivity | exact Hjson].
Qed.

(** X7. A PUT is made only after the issuer's response was ok and its
    JSON was neither [null] nor [undefined], and it goes to whatever the
    [uploadUrl] property of that JSON holds; the uploader does not check
    that the property is there, so for a response without it the PUT
    goes to [undefined]. *)
Theorem uploader_put_follows_permission (file : UploadPage.File) {W}
    (impl : Impl UploadPage.Event W) (w : W) :
  Forall (fun '(url, init, _) =>
            UploadPage.method init = "PUT" ->
            exists (res : UploadPage.Response) (data : JsValue),
              head (Observed.exchanges
                      (trace (run impl (UploadPage.handleUpload (Some file)) w)))
                = Some (Observed.post_request, Ok res)
              /\ UploadPage.ok res = true
              /\ UploadPage.json res = Ok data
              /\ data <> JUndefined /\ data <> JNull
              /\ url = get_property "uploadUrl" data)
    (Observed.exchanges (trace (run impl (UploadPage.handleUpload (Some file)) w)))
  /\ UploadPage.put_requests
       (trace (run Observed.scripted_upload (UploadPage.handleUpload (Some file))
                 [Observed.ok_json (JObject ∅)]))
     = [Observed.put_request JUndefined file].
Proof.
  split; [| vm_compute; reflexivity].
  destruct (handleUpload_cases file impl w) as [_ Hcases]; cbv zeta in Hcases.
  destruct Hcases as
    [(e & -> & _) | [(res & -> & _) | [(res & e & -> & _)
    | [(res & data & -> & _)
    | (res & data & answer & -> & Hok & Hjson & Hundefined & Hnotnull & _)]]]];
    repeat constructor; try discriminate.
  intros _. exists res, data. repeat split; auto.
Qed.

(** X8. When the last status says [Upload complete! Your file key is k],
    both requests were answered ok: the issuer's response carried JSON
    [data], the PUT to [data.uploadUrl] was acknowledged, and [k] is the
    text of [data.key]. *)
Theorem uploader_completion_means_stored (file : UploadPage.File) {W}
    (impl : Impl UploadPage.Event W) (w : W) (k : string) :
  last (UploadPage.statuses (trace (run impl (UploadPage.handleUpload (Some file)) w)))
    = Some ("Upload complete! Your file key is " ++ k) ->
  exists (res stored : UploadPage.Response) (data : JsValue),
    Observed.exchanges (trace (run impl (UploadPage.handleUpload (Some file)) w))
      = [(Observed.post_request, Ok res);
         (Observed.put_request (get_property "uploadUrl" data) file, Ok stored)]
    /\ UploadPage.ok res = true
    /\ UploadPage.json res = Ok data
    /\ UploadPage.ok stored = true
    /\ k = UploadPage.to_string (get_property "key" data).
Proof.
  destruct (handleUpload_cases file impl w) as [_ Hcases]; cbv zeta in Hcases.
  destruct Hcases as
    [(e & _ & ->) | [(res & _ & _ & ->) | [(res & e & _ & _ & _ & ->)
    | [(res & data & _ & _ & _ & _ & ->)
    | (res & data & answer & -> & Hok & Hjson & _ & _ & ->)]]]];
    cbn [last]; intros Hlast; try discriminate Hlast.
  destruct answer as [stored | e]; [| discriminate Hlast].
  destruct (UploadPage.ok stored) eqn:Hstored; [| discriminate Hlast].
  injection Hlast as Hk. apply (inj (String.app _)) in Hk.
  exists res, stored, data. repeat split; auto.
Qed.

Lemma uploader_completion_means_stored_witness :
  exists (res stored : UploadPage.Response) (data : JsValue),
    Observed.exchanges
      (trace (run Observed.scripted_upload (UploadPage.handleUpload (Some UploadPage.png))
                [Observed.ok_json (JObject {[ "uploadUrl" := JString "https://s3/u";
                                              "key" := JString "uploads/u" ]});
                 Observed.ok_json JNull]))
      = [(Observed.post_request, Ok res);
         (Observed.put_request (get_property "uploadUrl" data) UploadPage.png, Ok stored)]
    /\ UploadPage.ok res = true
    /\ UploadPage.json res = Ok data
    /\ UploadPage.ok stored = true
    /\ "uploads/u" = UploadPage.to_string (get_property "key" data).
Proof.
  apply (uploader_completion_means_stored UploadPage.png Observed.scripted_upload).
  vm_compute. reflexivity.
Defined.

(** X9. Failures are reported by their own message.  A rejected request
    shows [Error: ] and the message of the rejection, or [unknown] when
    it has none; a response that is not ok shows [Error: Failed to get
    upload URL] for the POST and [Error: Upload failed] for the PUT,
    whatever the response carries. *)
Theorem uploader_reports_failures (file : UploadPage.File) {W}
    (impl : Impl UploadPage.Event W) (w : W) :
  let r := run impl (UploadPage.handleUpload (Some file)) w in
  Forall (fun '(_, init, answer) =>
            match answer with
            | Err e =>
                last (UploadPage.statuses (trace r))
                = Some ("Error: " ++ default "unknown" (message e))
            | Ok res =>
                UploadPage.ok res = false ->
                last (UploadPage.statuses (trace r))
                = Some (if decide (UploadPage.method init = "POST")
                        then "Error: Failed to get upload URL"
                        else "Error: Upload failed")
            end)
    (Observed.exchanges (trace r)).
Proof.
  destruct (handleUpload_cases file impl w) as [_ Hcases]; cbv zeta in Hcases.
  cbv zeta.
  destruct Hcases as
    [(e & -> & ->) | [(res & -> & Hok & ->) | [(res & e & -> & Hok & _ & ->)
    | [(res & data & -> & Hok & _ & _ & ->)
    | (res & data & answer & -> & Hok & _ & _ & _ & ->)]]]];
    repeat constructor; try (intros Hno; congruence); try reflexivity.
  destruct answer as [stored | e]; [| reflexivity].
  intros Hstored. rewrite Hstored. reflexivity.
Qed.

(** ** Verification page *)
Section verify_page_facts.
Import Stdlib.Strings.Ascii.
Import VerifyPage.

Lemma append_cons (c : ascii) (a b : string) : String c a ++ b = String c (a ++ b).
Proof. reflexivity. Qed.

Lemma append_empty (s : string) : s ++ "" = s.
Proof.
  induction s as [| c s IH]; [reflexivity |]. rewrite append_cons, IH. reflexivity.
Qed.

Lemma append_assoc (a b c : string) : (a ++ b) ++ c = a ++ b ++ c.
Proof.
  induction a as [| d a IH]; [reflexivity |]. rewrite !append_cons, IH. reflexivity.
Qed.

Lemma chars_app (a b : string) :
  Observed.chars (a ++ b) = (Observed.chars a ++ Observed.chars b)%list.
Proof.
  induction a as [| c a IH]; [reflexivity |].
  rewrite append_cons. unfold Observed.chars in *. cbn [String.list_ascii_of_string].
  rewrite IH. reflexivity.
Qed.

Lemma percent_decode_encode_byte (c : ascii) (rest : string) :
  percent_decode (percent_encode c ++ rest) = String c (percent_decode rest).
Proof.
  destruct c as [[] [] [] [] [] [] [] []]; reflexivity.
Qed.

(** The unreserved characters are none of those that structure a URL or
    a query. *)
Lemma unreserved_not_special (c : ascii) :
  unreserved c = true ->
  c <> "%"%char /\ c <> "&"%char /\ c <> "="%char /\ c <> "+"%char
  /\ c <> "?"%char /\ c <> "#"%char /\ c <> " "%char /\ c <> "/"%char.
Proof.
  destruct c as [[] [] [] [] [] [] [] []]; vm_compute; intros H;
    try discriminate H; repeat split; discriminate.
Qed.

Lemma percent_decode_plain (c : ascii) (rest : string) :
  c <> "%"%char -> percent_decode (String c rest) = String c (percent_decode rest).
Proof.
  intros Hc. cbn [percent_decode].
  destruct (decide (c = "%"%char)); [contradiction | reflexivity].
Qed.

Lemma percent_decode_encoded (s : string) :
  percent_decode (encodeURIComponent s) = s.
Proof.
  induction s as [| c rest IH]; [reflexivity |].
  cbn [encodeURIComponent]. destruct (unreserved c) eqn:Hc.
  - destruct (unreserved_not_special c Hc) as [Hpc _].
    change (percent_decode (String c (encodeURIComponent rest)) = String c rest).
    rewrite percent_decode_plain by exact Hpc.
    rewrite IH. reflexivity.
  - rewrite percent_decode_encode_byte, IH. reflexivity.
Qed.

(** X10. Percent-decoding undoes [encodeURIComponent]: whatever the user
    typed, control characters, [%], [&] and non-ASCII text included, is
    recovered byte for byte from its encoding. *)
Theorem encodeURIComponent_round_trip (s : string) :
  percent_decode (encodeURIComponent s) = s.
Proof. apply percent_decode_encoded. Qed.

Lemma percent_encode_chars (c : ascii) :
  Forall (fun d => unreserved d = true \/ d = "%"%char)
    (Observed.chars (percent_encode c)).
Proof.
  destruct c as [[] [] [] [] [] [] [] []];
    repeat (constructor; [first [left; reflexivity | right; reflexivity] |]);
    constructor.
Qed.

Lemma encodeURIComponent_chars (s : string) :
  Forall (fun c => unreserved c = true \/ c = "%"%char)
    (Observed.chars (encodeURIComponent s)).
Proof.
  induction s as [| c rest IH]; [constructor |].
  cbn [encodeURIComponent]. rewrite chars_app. apply Forall_app. split; [| exact IH].
  destruct (unreserved c) eqn:Hc.
  - constructor; [left; exact Hc | constructor].
  - apply percent_encode_chars.
Qed.

(** X11. The encoding of any text consists of unreserved characters and
    [%] only, so it contains none of [&], [=], [+], [?], [#], [/] or a
    space: a code cannot add a parameter to the query or cut it short. *)
Theorem encodeURIComponent_is_inert (s : string) :
  Forall (fun c =>
            (unreserved c = true \/ c = "%"%char)
            /\ c ∉ Observed.chars "&=+?#/ ")
    (Observed.chars (encodeURIComponent s)).
Proof.
  eapply Forall_impl; [apply encodeURIComponent_chars |].
  intros c Hc. split; [exact Hc |].
  intros Hin. unfold Observed.chars in Hin. cbn [String.list_ascii_of_string] in Hin.
  destruct Hc as [Hc | ->].
  - destruct (unreserved_not_special c Hc)
      as (_ & Hamp & Heq & Hplus & Hq & Hhash & Hsp & Hslash).
    repeat (apply elem_of_cons in Hin as [Hin | Hin]; [contradiction |]).
    inversion Hin.
  - repeat (apply elem_of_cons in Hin as [Hin | Hin]; [discriminate Hin |]).
    inversion Hin.
Qed.
End verify_page_facts.

Section verify_page_runs.
Import Stdlib.Strings.Ascii.
Import VerifyPage.

Lemma split_without_separator (c : ascii) (piece s : string) :
  Forall (fun d => d <> c) (Observed.chars s) ->
  ReportRoute.split_from (String c "") 0 piece s = [piece ++ s].
Proof.
  revert piece; induction s as [| d rest IH]; intros piece Hs.
  - cbn [ReportRoute.split_from]. rewrite append_empty. reflexivity.
  - apply Forall_cons in Hs as [Hd Hrest].
    cbn [ReportRoute.split_from String.prefix].
    destruct (ascii_dec c d) as [-> | _]; [contradiction |].
    rewrite IH by exact Hrest. rewrite append_assoc. reflexivity.
Qed.

Lemma cut_at_first (c : ascii) (before behind : string) :
  Forall (fun d => d <> c) (Observed.chars before) ->
  cut_at c (before ++ String c behind) = (before, behind).
Proof.
  induction before as [| d before IH]; intros Hb.
  - change ("" ++ String c behind) with (String c behind). cbn [cut_at].
    rewrite decide_True by reflexivity. reflexivity.
  - apply Forall_cons in Hb as [Hd Hrest].
    rewrite append_cons. cbn [cut_at].
    rewrite decide_False by exact Hd. rewrite IH by exact Hrest. reflexivity.
Qed.

Lemma plus_to_space_without_plus (s : string) :
  Forall (fun d => d <> "+"%char) (Observed.chars s) -> plus_to_space s = s.
Proof.
  induction s as [| d rest IH]; intros Hs; [reflexivity |].
  apply Forall_cons in Hs as [Hd Hrest]. cbn [plus_to_space].
  rewrite decide_False by exact Hd. rewrite IH by exact Hrest. reflexivity.
Qed.

Lemma encodeURIComponent_avoids (s : string) (c : ascii) :
  unreserved c = false -> c <> "%"%char ->
  Forall (fun d => d <> c) (Observed.chars (encodeURIComponent s)).
Proof.
  intros Hc Hpc. eapply Forall_impl; [apply encodeURIComponent_chars |].
  intros d [Hd | ->] Heq; [| congruence]. subst d. congruence.
Qed.

Lemma request_for_encoded (code : string) :
  request_for ("/api/verify?code=" ++ encodeURIComponent code)
  = VerifyRoute.request [("code", code)].
Proof.
  unfold request_for.
  change ("/api/verify?code=" ++ encodeURIComponent code)
    with ("/api/verify" ++ String "?" ("code=" ++ encodeURIComponent code)).
  rewrite cut_at_first by (repeat constructor; discriminate).
  unfold VerifyRoute.request. do 2 f_equal.
  unfold parse_query, ReportRoute.split.
  rewrite split_without_separator.
  2:{ rewrite chars_app. apply Forall_app. split.
      - repeat constructor; discriminate.
      - apply encodeURIComponent_avoids; [reflexivity | discriminate]. }
  change ("" ++ "code=" ++ encodeURIComponent code)
    with (String "c" ("ode" ++ String "=" (encodeURIComponent code))).
  rewrite filter_cons_True by discriminate. rewrite filter_nil.
  cbn [fmap list_fmap]. unfold parse_pair.
  change (String "c" ("ode" ++ String "=" (encodeURIComponent code)))
    with ("code" ++ String "=" (encodeURIComponent code)).
  rewrite cut_at_first by (repeat constructor; discriminate).
  rewrite (plus_to_space_without_plus (encodeURIComponent code))
    by (apply encodeURIComponent_avoids; [reflexivity | discriminate]).
  rewrite percent_decode_encoded. reflexivity.
Qed.

(** X12. The URL the page fetches for a code is read by the server as the
    path [/api/verify] with the single parameter [code] holding exactly
    the text typed: encoding and query parsing are inverse to each other,
    also for codes that contain [&], [=], [+], [%] or [?]. *)
Theorem route_receives_typed_code (code : string) :
  let req := request_for ("/api/verify?code=" ++ encodeURIComponent code) in
  VerifyRoute.pathname (VerifyRoute.nextUrl req) = "/api/verify"
  /\ VerifyRoute.searchParams (VerifyRoute.nextUrl req) = [("code", code)]
  /\ VerifyRoute.get "code" (VerifyRoute.searchParams (VerifyRoute.nextUrl req))
     = Some code.
Proof.
  cbv zeta. rewrite request_for_encoded. repeat split; reflexivity.
Qed.

(** X13. Page and route together, for every non-empty code: the page
    shows [Checking…] and then [Error: URI malformed] when the code has a
    lone surrogate (no request is made), [Valid report issued on
    2024-01-01] when the code is [VALID123], and [Invalid or unknown
    report code] for every other code. *)
Theorem verify_page_against_route (code : string) :
  code <> "" ->
  results (trace (run network (verify code) tt))
  = ["Checking…";
     if lone_surrogate code then "Error: URI malformed"
     else if decide (code = "VALID123")
     then "Valid report issued on 2024-01-01"
     else "Invalid or unknown report code"]
  /\ fetched (trace (run network (verify code) tt))
     = if lone_surrogate code then []
       else ["/api/verify?code=" ++ encodeURIComponent code].
Proof.
  intros Hcode. unfold verify. rewrite decide_False by exact Hcode.
  unfold call_encodeURIComponent.
  destruct (lone_surrogate code) eqn:Hlone; [split; reflexivity |].
  unfold perform, await. cbn [run bind try_catch network].
  rewrite request_for_encoded.
  unfold VerifyRoute.GET, VerifyRoute.request.
  cbn [VerifyRoute.nextUrl VerifyRoute.searchParams].
  assert (Hget : VerifyRoute.get "code" [("code", code)] = Some code) by reflexivity.
  rewrite Hget; clear Hget.
  destruct (decide (code = "VALID123")) as [-> | Hne].
  - split; vm_compute; reflexivity.
  - rewrite decide_False by congruence. split; reflexivity.
Qed.

Lemma verify_page_against_route_witness :
  results (trace (run network (verify "valid123&code=VALID123") tt))
  = ["Checking…";
     if lone_surrogate "valid123&code=VALID123" then "Error: URI malformed"
     else if decide ("valid123&code=VALID123" = "VALID123")
     then "Valid report issued on 2024-01-01"
     else "Invalid or unknown report code"]
  /\ fetched (trace (run network (verify "valid123&code=VALID123") tt))
     = if lone_surrogate "valid123&code=VALID123" then []
       else ["/api/verify?code=" ++ encodeURIComponent "valid123&code=VALID123"].
Proof.
  apply (verify_page_against_route "valid123&code=VALID123"). discriminate.
Defined.

(** The code [U+D800], a lone surrogate, is answered by the page itself:
    no request, and the message of the [URIError]. *)
Example verify_page_lone_surrogate :
  let code := String (ascii_of_nat 237) (String (ascii_of_nat 160)
                (String (ascii_of_nat 128) "")) in
  results (trace (run network (verify code) tt)) = ["Checking…"; "Error: URI malformed"]
  /\ fetched (trace (run network (verify code) tt)) = [].
Proof. vm_compute. split; reflexivity. Qed.
End verify_page_runs.

(** Every run of [verify] for a non-empty code, by the answer its request
    got. *)
Lemma verify_cases (code : string) {W} (impl : Impl VerifyPage.Event W) (w : W) :
  code <> "" ->
  let r := run impl (VerifyPage.verify code) w in
  let answers := Observed.verify_answers (trace r) in
  let shown := VerifyPage.results (trace r) in
  let report (e : JsError) := "Error: " ++ default "unknown" (message e) in
  outcome r = Ok tt
  /\ VerifyPage.fetched (trace r)
     = (if VerifyPage.lone_surrogate code then []
        else ["/api/verify?code=" ++ VerifyPage.encodeURIComponent code])
  /\ ((VerifyPage.lone_surrogate code = true
       /\ answers = [] /\ shown = ["Checking…"; "Error: URI malformed"])
      \/ (exists e,
            answers = [Err e] /\ VerifyPage.lone_surrogate code = false
            /\ shown = ["Checking…"; report e])
      \/ (exists res,
            answers = [Ok res] /\ UploadPage.ok res = false
            /\ shown = ["Checking…"; "Error: Network error"])
      \/ (exists res e,
            answers = [Ok res] /\ UploadPage.ok res = true
            /\ UploadPage.json res = Err e
            /\ shown = ["Checking…"; report e])
      \/ (exists res data,
            answers = [Ok res] /\ UploadPage.ok res = true
            /\ UploadPage.json res = Ok data
            /\ (data = JUndefined \/ data = JNull)
            /\ shown = ["Checking…"; "Error: Cannot read properties"])
      \/ (exists res data,
            answers = [Ok res] /\ UploadPage.ok res = true
            /\ UploadPage.json res = Ok data
            /\ data <> JUndefined /\ data <> JNull
            /\ shown = ["Checking…";
                        if VerifyPage.truthy (get_property "valid" data)
                        then "Valid report issued on "
                             ++ UploadPage.to_string (get_property "issuedAt" data)
                        else "Invalid or unknown report code"])).
Proof.
  intros Hcode. unfold VerifyPage.verify. rewrite decide_False by exact Hcode.
  unfold VerifyPage.call_encodeURIComponent.
  destruct (VerifyPage.lone_surrogate code) eqn:Hlone.
  { unfold perform; simpl. step impl. step impl.
    do 2 (split; [reflexivity |]). left. auto. }
  unfold perform, await; simpl.
  step impl. step impl.
  destruct r as [res | e]; simpl.
  2:{ step impl. do 2 (split; [reflexivity |]). right; left. eauto. }
  destruct (UploadPage.ok res) eqn:Hok; simpl.
  2:{ step impl. do 2 (split; [reflexivity |]). do 2 right; left. eauto. }
  destruct (UploadPage.json res) as [data | e] eqn:Hjson; simpl.
  2:{ step impl. do 2 (split; [reflexivity |]). do 3 right; left. eauto 10. }
  assert (Hdata :
            (data = JUndefined \/ data = JNull)
            /\ VerifyPage.property "valid" data
               = Throw (Error (Some "Cannot read properties"))
            \/ data <> JUndefined /\ data <> JNull
               /\ VerifyPage.property "valid" data = Ret (get_property "valid" data)).
  { destruct data; auto; right; repeat split; discriminate. }
  destruct Hdata as [[Hnull ->] | (Hundefined & Hnotnull & ->)]; simpl.
  { step impl. do 2 (split; [reflexivity |]). do 4 right; left. eauto 10. }
  destruct (VerifyPage.truthy (get_property "valid" data)) eqn:Hvalid; simpl;
    step impl; do 2 (split; [reflexivity |]); do 5 right;
    exists res, data; rewrite ?Hvalid; repeat split; auto.
Qed.

(** X14. [verify] never rejects.  With an empty field it makes no call at
    all.  Otherwise it shows exactly two texts, [Checking…] and a
    verdict; for a code with a lone surrogate it makes no request and the
    verdict is [Error: URI malformed]; for any other code it makes
    exactly one request, for [/api/verify?code=] followed by the encoded
    code. *)
Theorem verify_page_requests (code : string) {W}
    (impl : Impl VerifyPage.Event W) (w : W) :
  outcome (run impl (VerifyPage.verify code) w) = Ok tt
  /\ if decide (code = "")
     then trace (run impl (VerifyPage.verify code) w) = []
     else (exists verdict : string,
             VerifyPage.results (trace (run impl (VerifyPage.verify code) w))
             = ["Checking…"; verdict])
          /\ if VerifyPage.lone_surrogate code
             then VerifyPage.fetched (trace (run impl (VerifyPage.verify code) w)) = []
                  /\ VerifyPage.results (trace (run impl (VerifyPage.verify code) w))
                     = ["Checking…"; "Error: URI malformed"]
             else VerifyPage.fetched (trace (run impl (VerifyPage.verify code) w))
                  = ["/api/verify?code=" ++ VerifyPage.encodeURIComponent code].
Proof.
  destruct (decide (code = "")) as [-> | Hcode]; [split; reflexivity |].
  destruct (verify_cases code impl w Hcode) as (Hout & Hfetched & Hcases);
    cbv zeta in Hcases.
  split; [exact Hout |]. split.
  - destruct Hcases as
      [(_ & _ & ->) | [(e & _ & _ & ->) | [(res & _ & _ & ->)
      | [(res & e & _ & _ & _ & ->)
      | [(res & data & _ & _ & _ & _ & ->) | (res & data & _ & _ & _ & _ & _ & ->)]]]]];
      eexists; reflexivity.
  - destruct (VerifyPage.lone_surrogate code) eqn:Hlone; [| exact Hfetched].
    split; [exact Hfetched |].
    destruct Hcases as [(_ & _ & ->) | Hother]; [reflexivity |].
    exfalso. revert Hother Hfetched.
    unfold Observed.verify_answers, VerifyPage.fetched.
    generalize (trace (run impl (VerifyPage.verify code) w)).
    intros tr Hother Hfetched.
    assert (Hnone : omap Observed.verify_answer tr = []).
    { clear Hother. induction tr as [| [X ev a] tr IH]; [reflexivity |].
      destruct ev; cbn [omap list_omap Observed.verify_answer
                        VerifyPage.fetched_url] in *;
        [apply IH; exact Hfetched | discriminate Hfetched]. }
    rewrite Hnone in Hother.
    destruct Hother as
      [(e & Ha & _) | [(res & Ha & _) | [(res & e & Ha & _)
      | [(res & data & Ha & _) | (res & data & Ha & _)]]]]; discriminate Ha.
Qed.

(** X15. The page shows [Valid report issued on …] only when the response
    was ok and the [valid] property of its JSON is truthy; the date shown
    is the text of the [issuedAt] property, [undefined] when the response
    has none. *)
Theorem verify_page_valid_only_when_confirmed (code : string) {W}
    (impl : Impl VerifyPage.Event W) (w : W) (date : string) :
  last (VerifyPage.results (trace (run impl (VerifyPage.verify code) w)))
    = Some ("Valid report issued on " ++ date) ->
  exists (res : UploadPage.Response) (data : JsValue),
    Observed.verify_answers (trace (run impl (VerifyPage.verify code) w)) = [Ok res]
    /\ UploadPage.ok res = true
    /\ UploadPage.json res = Ok data
    /\ VerifyPage.truthy (get_property "valid" data) = true
    /\ date = UploadPage.to_string (get_property "issuedAt" data).
Proof.
  destruct (decide (code = "")) as [-> | Hcode]; [discriminate |].
  destruct (verify_cases code impl w Hcode) as (_ & _ & Hcases); cbv zeta in Hcases.
  destruct Hcases as
    [(_ & _ & ->) | [(e & _ & _ & ->) | [(res & _ & _ & ->)
    | [(res & e & _ & _ & _ & ->)
    | [(res & data & _ & _ & _ & _ & ->)
    | (res & data & -> & Hok & Hjson & _ & _ & ->)]]]]];
    cbn [last]; intros Hlast; try discriminate Hlast.
  destruct (VerifyPage.truthy (get_property "valid" data)) eqn:Hvalid;
    [| discriminate Hlast].
  injection Hlast as Hdate. apply (inj (String.app _)) in Hdate.
  exists res, data. repeat split; auto.
Qed.

Lemma verify_page_valid_only_when_confirmed_witness :
  exists (res : UploadPage.Response) (data : JsValue),
    Observed.verify_answers
      (trace (run Observed.scripted_verify (VerifyPage.verify "ABC")
                [Observed.ok_json (JObject {[ "valid" := JBool true ]})]))
      = [Ok res]
    /\ UploadPage.ok res = true
    /\ UploadPage.json res = Ok data
    /\ VerifyPage.truthy (get_property "valid" data) = true
    /\ "undefined" = UploadPage.to_string (get_property "issuedAt" data).
Proof.
  apply (verify_page_valid_only_when_confirmed "ABC" Observed.scripted_verify).
  vm_compute. reflexivity.
Defined.

(** X16. Failures of the lookup are shown as errors, never as a verdict
    on the code: a rejected request shows [Error: ] and its message
    ([unknown] without one), and a response that is not ok shows
    [Error: Network error] whatever its body says. *)
Theorem verify_page_reports_failures (code : string) {W}
    (impl : Impl VerifyPage.Event W) (w : W) :
  let r := run impl (VerifyPage.verify code) w in
  Forall (fun answer =>
            match answer with
            | Err e =>
                last (VerifyPage.results (trace r))
                = Some ("Error: " ++ default "unknown" (message e))
            | Ok res =>
                UploadPage.ok res = false ->
                last (VerifyPage.results (trace r)) = Some "Error: Network error"
            end)
    (Observed.verify_answers (trace r)).
Proof.
  cbv zeta. destruct (decide (code = "")) as [-> | Hcode]; [constructor |].
  destruct (verify_cases code impl w Hcode) as (_ & _ & Hcases); cbv zeta in Hcases.
  destruct Hcases as
    [(_ & -> & _) | [(e & -> & _ & ->) | [(res & -> & Hok & ->)
    | [(res & e & -> & Hok & _ & ->)
    | [(res & data & -> & Hok & _ & _ & ->)
    | (res & data & -> & Hok & _ & _ & _ & ->)]]]]];
    repeat constructor; intros Hno; congruence.
Qed.

(** ** Splitting the body text *)
Section split_facts.
Import Stdlib.Strings.Ascii.
Import ReportRoute.

Lemma split_from_skip (sep : string) (skipped s piece : string) :
  split_from sep (String.length skipped) piece (skipped ++ s)
  = split_from sep 0 piece s.
Proof.
  induction skipped as [| c skipped IH]; [reflexivity |].
  rewrite append_cons. cbn [String.length split_from]. exact IH.
Qed.

Lemma prefix_append (sep s : string) :
  String.prefix sep s = true -> exists rest, s = sep ++ rest.
Proof.
  revert s; induction sep as [| c sep IH]; intros s Hp.
  - exists s. reflexivity.
  - destruct s as [| d s]; [discriminate Hp |].
    cbn [String.prefix] in Hp. destruct (ascii_dec c d) as [-> | _]; [| discriminate Hp].
    destruct (IH s Hp) as [rest ->]. exists rest. reflexivity.
Qed.

Lemma split_from_nonempty (sep : string) (skip : nat) (piece s : string) :
  split_from sep skip piece s <> [].
Proof.
  revert skip piece; induction s as [| c s IH]; intros skip piece; [discriminate |].
  cbn [split_from]. destruct skip as [| n]; [| apply IH].
  destruct (String.prefix sep (String c s)); [discriminate | apply IH].
Qed.

Lemma length_append (a b : string) :
  String.length (a ++ b) = (String.length a + String.length b)%nat.
Proof.
  induction a as [| c a IH]; [reflexivity |].
  rewrite append_cons. cbn [String.length]. rewrite IH. reflexivity.
Qed.

Lemma concat_cons (sep piece : string) (pieces : list string) :
  pieces <> [] ->
  String.concat sep (piece :: pieces) = piece ++ sep ++ String.concat sep pieces.
Proof. destruct pieces; [contradiction | reflexivity]. Qed.

(** X17. Splitting at a non-empty separator loses nothing: joining the
    pieces with the separator gives the text back, so the lines the
    report draws are the whole body text and nothing else. *)
Theorem split_join (sep s : string) :
  sep <> "" -> String.concat sep (split sep s) = s.
Proof.
  intros Hsep. unfold split.
  enough (H : forall n s piece, (String.length s < n)%nat ->
                String.concat sep (split_from sep 0 piece s) = piece ++ s)
    by (apply (H (S (String.length s)) s ""); lia).
  clear s. induction n as [| n IH]; intros s piece Hlen; [lia |].
  destruct s as [| c s].
  - cbn [split_from String.concat]. rewrite append_empty. reflexivity.
  - cbn [split_from]. destruct (String.prefix sep (String c s)) eqn:Hp.
    + destruct (prefix_append _ _ Hp) as [rest Hrest].
      destruct sep as [| d sep']; [contradiction |].
      rewrite append_cons in Hrest. injection Hrest as <- ->.
      replace (String.length (String c sep') - 1)%nat with (String.length sep')
        by (cbn [String.length]; lia).
      rewrite split_from_skip.
      rewrite concat_cons by apply split_from_nonempty.
      rewrite IH.
      * reflexivity.
      * cbn [String.length] in Hlen. rewrite length_append in Hlen. lia.
    + rewrite IH by (cbn [String.length] in Hlen; lia).
      rewrite append_assoc. reflexivity.
Qed.
End split_facts.

Lemma split_join_witness :
  String.concat "\n" (ReportRoute.split "\n" ReportRoute.body_text)
  = ReportRoute.body_text.
Proof. apply (split_join "\n" ReportRoute.body_text). discriminate. Defined.

(** ** Report generator: failures and drawing *)
Section report_runs.
Import ReportRoute.
Context {W : Type} (impl : Impl Event W).

Lemma fail_fast_ret {A} (a : A) (w : W) : Observed.fail_fast (run impl (Ret a) w).
Proof. split; reflexivity. Qed.

Lemma fail_fast_await_bind {X B} (ev : Event (Result X)) (f : X -> Prog Event B)
    (w : W) :
  (forall a, Observed.error_of (Called ev a) = Observed.error_in a) ->
  (forall a, Observed.logged (Called ev a) = None) ->
  (forall x w', Observed.fail_fast (run impl (f x) w')) ->
  Observed.fail_fast (run impl (bind (await ev) f) w).
Proof.
  intros Herr Hlog Hrest. rewrite run_await_bind.
  destruct (impl _ ev w) as [[x | e] w']; cbn [fst snd].
  - destruct (Hrest x w') as [Hlogged Hcase].
    split; rewrite ?outcome_after, ?trace_after.
    + cbn [omap list_omap]. rewrite Hlog. exact Hlogged.
    + destruct (outcome (run impl (f x) w')) as [b | e].
      * cbn [omap list_omap]. rewrite Herr. exact Hcase.
      * destruct Hcase as (before & c & -> & Hc & Hbefore).
        exists (Called ev (Ok x) :: before), c. repeat split; [exact Hc |].
        cbn [omap list_omap]. rewrite Herr. exact Hbefore.
  - split; cbn [trace outcome omap list_omap].
    + rewrite Hlog. reflexivity.
    + exists [], (Called ev (Err e)). repeat split. apply Herr.
Qed.

Lemma fail_fast_bind {A B} (p : Prog Event A) (f : A -> Prog Event B) (w : W) :
  Observed.fail_fast (run impl p w) ->
  (forall a w', Observed.fail_fast (run impl (f a) w')) ->
  Observed.fail_fast (run impl (bind p f) w).
Proof.
  intros [Hlogged Hcase] Hrest. rewrite run_bind; cbv zeta.
  destruct (run impl p w) as [[a | e] w' tr]; cbn [outcome final trace] in *.
  - destruct (Hrest a w') as [Hlogged' Hcase']. split; cbn [outcome trace].
    + rewrite omap_app, Hlogged, Hlogged'. reflexivity.
    + destruct (outcome (run impl (f a) w')) as [b | e].
      * rewrite omap_app, Hcase, Hcase'. reflexivity.
      * destruct Hcase' as (before & c & -> & Hc & Hbefore).
        exists (tr ++ before)%list, c. split; [apply app_assoc |].
        split; [exact Hc |]. rewrite omap_app, Hcase, Hbefore. reflexivity.
  - split; [exact Hlogged | exact Hcase].
Qed.

Lemma draw_lines_fail_fast page f page_width ls y0 (w : W) :
  Observed.fail_fast (run impl (draw_lines page f page_width ls y0) w).
Proof.
  revert y0 w; induction ls as [| line rest IH]; intros y0 w.
  - apply fail_fast_ret.
  - cbn [draw_lines]. apply fail_fast_await_bind; [reflexivity | reflexivity |].
    intros _ w'. apply IH.
Qed.

Lemma generate_fail_fast (w : W) : Observed.fail_fast (run impl generate w).
Proof.
  unfold generate.
  do 6 (apply fail_fast_await_bind; [reflexivity | reflexivity |]; intros ? ?).
  apply fail_fast_bind; [apply draw_lines_fail_fast |]; intros _ ?.
  apply fail_fast_await_bind; [reflexivity | reflexivity |]; intros ? ?.
  apply fail_fast_ret.
Qed.

(** X18. The report handler stops at the first call into pdf-lib that
    fails: no call before it failed, no call into pdf-lib follows it, the
    error is written to the console once, right after, and is the error
    of that call, and the response is the failure response.  When no
    call fails nothing is written to the console. *)
Theorem report_fails_fast_and_logs (w : W) :
  let tr := trace (run impl GET w) in
  (omap Observed.error_of tr = [] /\ omap Observed.logged tr = [])
  \/ exists before c e,
       tr = (before ++ [c; Called (console_error e) tt])%list
       /\ Observed.error_of c = Some e
       /\ omap Observed.error_of before = []
       /\ omap Observed.logged before = []
       /\ outcome (run impl GET w) = Ok failure.
Proof.
  cbv zeta. unfold GET. rewrite run_try_catch; cbv zeta.
  destruct (generate_fail_fast w) as [Hlogged Hcase].
  destruct (run impl generate w) as [[response | e] w' tr];
    cbn [outcome final trace] in *.
  - left. split; [exact Hcase | exact Hlogged].
  - right. destruct Hcase as (before & c & -> & Hc & Hbefore).
    exists before, c, e. unfold perform; simpl.
    destruct (impl _ _ w') as [[] w'']; simpl.
    rewrite omap_app in Hlogged. apply app_eq_nil in Hlogged as [Hlogged _].
    rewrite <- app_assoc. repeat split; auto.
Qed.

Lemma draws_ret {A} (a : A) (w : W) : Observed.draws [] (run impl (Ret a) w).
Proof. reflexivity. Qed.

Lemma draws_await_bind {X B} (ev : Event (Result X)) (f : X -> Prog Event B)
    expected (w : W) :
  (forall a, Observed.drawn (Called ev a) = None) ->
  (forall x w', Observed.draws expected (run impl (f x) w')) ->
  Observed.draws expected (run impl (bind (await ev) f) w).
Proof.
  intros Hdrawn Hrest. rewrite run_await_bind.
  destruct (impl _ ev w) as [[x | e] w']; cbn [fst snd].
  - specialize (Hrest x w'). unfold Observed.draws in *.
    rewrite outcome_after, trace_after. cbn [omap list_omap]. rewrite Hdrawn.
    exact Hrest.
  - unfold Observed.draws. cbn [outcome trace omap list_omap]. rewrite Hdrawn.
    apply prefix_nil.
Qed.

Lemma draws_drawText_bind {B} page text options (f : unit -> Prog Event B)
    expected (w : W) :
  (forall x w', Observed.draws expected (run impl (f x) w')) ->
  Observed.draws ((page, text, font options) :: expected)
    (run impl (bind (await (drawText page text options)) f) w).
Proof.
  intros Hrest. rewrite run_await_bind.
  destruct (impl _ _ w) as [[x | e] w']; cbn [fst snd].
  - specialize (Hrest x w'). unfold Observed.draws in *.
    rewrite outcome_after, trace_after. cbn [omap list_omap Observed.drawn].
    destruct (outcome (run impl (f x) w')).
    + rewrite Hrest. reflexivity.
    + apply prefix_cons. exact Hrest.
  - unfold Observed.draws. cbn [outcome trace omap list_omap Observed.drawn].
    apply prefix_cons, prefix_nil.
Qed.

Lemma draws_bind {A B} (p : Prog Event A) (f : A -> Prog Event B)
    expected1 expected2 (w : W) :
  Observed.draws expected1 (run impl p w) ->
  (forall a w', Observed.draws expected2 (run impl (f a) w')) ->
  Observed.draws (expected1 ++ expected2)%list (run impl (bind p f) w).
Proof.
  intros Hp Hrest. rewrite run_bind; cbv zeta. unfold Observed.draws in *.
  destruct (run impl p w) as [[a | e] w' tr]; cbn [outcome final trace] in *.
  - specialize (Hrest a w'). rewrite omap_app, Hp.
    destruct (outcome (run impl (f a) w')).
    + rewrite Hrest. reflexivity.
    + apply prefix_app. exact Hrest.
  - apply prefix_app_r. exact Hp.
Qed.

Lemma draw_lines_draws page f page_width ls y0 (w : W) :
  Observed.draws ((fun text => (page, text, f)) <$> ls)
    (run impl (draw_lines page f page_width ls y0) w).
Proof.
  revert y0 w; induction ls as [| line rest IH]; intros y0 w.
  - apply draws_ret.
  - cbn [draw_lines fmap list_fmap].
    apply (draws_drawText_bind page line
             {| x := 50%float; y := y0; size := fontSize; font := f;
                maxWidth := _; lineHeight := _ |}).
    intros _ w'. apply IH.
Qed.

Lemma draws_after {A} c (r : Run Event W A) expected :
  Observed.drawn c = None -> Observed.draws expected r ->
  Observed.draws expected (after c r).
Proof.
  intros Hc Hr. unfold Observed.draws in *.
  rewrite outcome_after, trace_after. cbn [omap list_omap]. rewrite Hc. exact Hr.
Qed.

Lemma report_texts_await_bind {X B} (ev : Event (Result X)) (f : X -> Prog Event B)
    (w : W) :
  (forall a, Observed.drawn (Called ev a) = None) ->
  (forall x w', exists page fnt,
      Observed.draws (Observed.report_texts page fnt) (run impl (f x) w')) ->
  exists page fnt,
    Observed.draws (Observed.report_texts page fnt) (run impl (bind (await ev) f) w).
Proof.
  intros Hdrawn Hrest. rewrite run_await_bind.
  destruct (impl _ ev w) as [[x | e] w']; cbn [fst snd].
  - destruct (Hrest x w') as (page & fnt & Hdraws).
    exists page, fnt. apply draws_after; [apply Hdrawn | exact Hdraws].
  - exists {| page_ref := 0 |}, {| font_ref := 0 |}.
    unfold Observed.draws. cbn [outcome trace omap list_omap]. rewrite Hdrawn.
    apply prefix_nil.
Qed.

Lemma report_texts_unfold page fnt :
  Observed.report_texts page fnt
  = (page, title, fnt) :: (((fun text => (page, text, fnt)) <$> lines) ++ [])%list.
Proof.
  unfold Observed.report_texts. rewrite app_nil_r.
  exact (fmap_cons (fun text => (page, text, fnt)) title lines).
Qed.

Lemma generate_draws (w : W) :
  exists page fnt,
    Observed.draws (Observed.report_texts page fnt) (run impl generate w).
Proof.
  unfold generate.
  apply report_texts_await_bind; [reflexivity |]; intros pdfDoc w1.
  apply report_texts_await_bind; [reflexivity |]; intros page w2.
  apply report_texts_await_bind; [reflexivity |]; intros dims w3.
  apply report_texts_await_bind; [reflexivity |]; intros fnt w4.
  exists page, fnt. rewrite report_texts_unfold.
  apply draws_await_bind; [reflexivity |]; intros titleWidth w5.
  apply (draws_drawText_bind page title
           {| x := _; y := _; size := titleSize; font := fnt;
              maxWidth := None; lineHeight := None |}).
  intros _ w6.
  apply draws_bind; [apply draw_lines_draws |]; intros _ w7.
  apply draws_await_bind; [reflexivity |]; intros pdfBytes w8.
  apply draws_ret.
Qed.

(** X19. All [drawText] calls of a run target one page with one font and
    are, in order, the title and then the lines of the body, empty lines
    included; a run in which a call fails has made the first few of
    these calls, and a run in which none fails has made them all. *)
Theorem report_draws_title_and_lines (w : W) :
  exists page fnt,
    let tr := trace (run impl GET w) in
    omap Observed.drawn tr `prefix_of` Observed.report_texts page fnt
    /\ (omap Observed.error_of tr = [] ->
        omap Observed.drawn tr = Observed.report_texts page fnt).
Proof.
  destruct (generate_draws w) as (page & fnt & Hdraws).
  destruct (generate_fail_fast w) as [_ Hcase].
  exists page, fnt. cbv zeta. unfold GET. rewrite run_try_catch; cbv zeta.
  unfold Observed.draws in Hdraws.
  destruct (run impl generate w) as [[response | e] w' tr];
    cbn [outcome final trace] in *.
  - rewrite Hdraws. split; [reflexivity | intros _; reflexivity].
  - unfold perform; simpl. destruct (impl _ _ w') as [[] w'']; simpl.
    rewrite !omap_app. cbn [omap list_omap Observed.drawn Observed.error_of].
    rewrite app_nil_r. split; [exact Hdraws |].
    destruct Hcase as (before & c & -> & Hc & Hbefore).
    rewrite omap_app, Hbefore. cbn [omap list_omap]. rewrite Hc. discriminate.
Qed.

Lemma saves_await_bind {X} (ev : Event (Result X)) (f : X -> Prog Event NextResponse)
    doc (w : W) :
  (forall x w', Observed.saves doc (run impl (f x) w')) ->
  Observed.saves doc (run impl (bind (await ev) f) w).
Proof.
  intros Hrest. rewrite run_await_bind.
  destruct (impl _ ev w) as [[x | e] w']; cbn [fst snd]; [| exact I].
  specialize (Hrest x w'). unfold Observed.saves in *.
  rewrite outcome_after, trace_after.
  destruct (outcome (run impl (f x) w')); [| exact I].
  destruct Hrest as (pdfBytes & Hlast & Hbody). exists pdfBytes.
  split; [| exact Hbody]. rewrite last_cons, Hlast. reflexivity.
Qed.

Lemma saves_bind {A} (p : Prog Event A) (f : A -> Prog Event NextResponse)
    doc (w : W) :
  (forall a w', Observed.saves doc (run impl (f a) w')) ->
  Observed.saves doc (run impl (bind p f) w).
Proof.
  intros Hrest. rewrite run_bind; cbv zeta. unfold Observed.saves in *.
  destruct (run impl p w) as [[a | e] w' tr]; cbn [outcome final trace]; [| exact I].
  specialize (Hrest a w').
  destruct (outcome (run impl (f a) w')); [| exact I].
  destruct Hrest as (pdfBytes & Hlast & Hbody). exists pdfBytes.
  split; [| exact Hbody]. rewrite last_app, Hlast. reflexivity.
Qed.

(** A response with status 200 carries what [save] returned for the
    document created at the start of the run. *)
Lemma GET_saves_document (w : W) (response : NextResponse) :
  outcome (run impl GET w) = Ok response ->
  status response = 200 ->
  exists doc pdfBytes rest,
    trace (run impl GET w) = Called PDFDocument_create (Ok doc) :: rest
    /\ last (trace (run impl GET w)) = Some (Called (save doc) (Ok pdfBytes))
    /\ body response = BodyBytes pdfBytes.
Proof.
  unfold GET. rewrite run_try_catch; cbv zeta. unfold generate.
  rewrite run_await_bind.
  destruct (impl _ PDFDocument_create w) as [[doc | e] w1]; cbn [fst snd].
  2:{ cbn [outcome final trace]. unfold perform; simpl.
      destruct (impl _ _ w1) as [[] w2]; simpl. intros [= <-]. discriminate. }
  match goal with |- context [run impl ?p w1] =>
    assert (Hsaves : Observed.saves doc (run impl p w1));
      [| destruct (run impl p w1) as [[response' | e] w2 tr] ]
  end.
  { do 4 (apply saves_await_bind; intros ? ?).
    apply saves_bind; intros _ ?.
    apply saves_bind; intros _ ?.
    rewrite run_await_bind.
    destruct (impl _ _ _) as [[pdfBytes | e] wlast]; cbn [fst snd]; [| exact I].
    exists pdfBytes. split; reflexivity. }
  - cbn [after outcome final trace]. intros [= <-] _.
    destruct Hsaves as (pdfBytes & Hlast & Hbody). cbn [trace] in Hlast.
    exists doc, pdfBytes, tr. split; [reflexivity |]. split; [| exact Hbody].
    rewrite last_cons, Hlast. reflexivity.
  - cbn [after outcome final trace]. unfold perform; simpl.
    destruct (impl _ _ w2) as [[] w3]; simpl. intros [= <-]. discriminate.
Qed.

(** X20. The body of a response with status 200 is exactly the bytes
    that [save] returned, [save] is the last call of the run, and it was
    asked of the document that the first call of the run created. *)
Theorem report_body_is_saved_document (w : W) (response : NextResponse) :
  outcome (run impl GET w) = Ok response ->
  status response = 200 ->
  exists doc pdfBytes rest,
    trace (run impl GET w) = Called PDFDocument_create (Ok doc) :: rest
    /\ last (trace (run impl GET w)) = Some (Called (save doc) (Ok pdfBytes))
    /\ body response = BodyBytes pdfBytes.
Proof. apply GET_saves_document. Qed.
End report_runs.

Lemma report_body_is_saved_document_witness :
  exists response doc pdfBytes rest,
    trace (run PdfLib.pdflib ReportRoute.GET (PdfLib.at_time 1700000000000))
      = Called ReportRoute.PDFDocument_create (Ok doc) :: rest
    /\ last (trace (run PdfLib.pdflib ReportRoute.GET (PdfLib.at_time 1700000000000)))
       = Some (Called (ReportRoute.save doc) (Ok pdfBytes))
    /\ body response = BodyBytes pdfBytes.
Proof.
  eexists.
  eapply (report_body_is_saved_document PdfLib.pdflib (PdfLib.at_time 1700000000000)).
  - vm_compute. reflexivity.
  - reflexivity.
Defined.

(** ** Report generator: the response *)
Section returning_runs.
Context {E : Type -> Type} {W : Type} (impl : Impl E W).

Lemma returns_ret {A} (a : A) (w : W) : Observed.returns (run impl (Ret a) w) a w.
Proof. split; reflexivity. Qed.

Lemma returns_await_bind {X B} (ev : E (Result X)) (f : X -> Prog E B)
    (w w1 w2 : W) (x : X) (b : B) :
  impl _ ev w = (Ok x, w1) ->
  Observed.returns (run impl (f x) w1) b w2 ->
  Observed.returns (run impl (bind (await ev) f) w) b w2.
Proof.
  intros Hev [Hout Hfinal]. rewrite run_await_bind, Hev. cbn [fst snd].
  split; [rewrite outcome_after | rewrite final_after]; assumption.
Qed.

Lemma returns_bind {A B} (p : Prog E A) (f : A -> Prog E B)
    (w w1 w2 : W) (a : A) (b : B) :
  Observed.returns (run impl p w) a w1 ->
  Observed.returns (run impl (f a) w1) b w2 ->
  Observed.returns (run impl (bind p f) w) b w2.
Proof.
  intros [Hout Hfinal] [Hout' Hfinal']. rewrite run_bind; cbv zeta.
  rewrite Hout, Hfinal. split; assumption.
Qed.

Lemma returns_try_catch {A} (p : Prog E A) (h : JsError -> Prog E A)
    (w w1 : W) (a : A) :
  Observed.returns (run impl p w) a w1 ->
  Observed.returns (run impl (try_catch p h) w) a w1.
Proof.
  intros [Hout Hfinal]. rewrite run_try_catch; cbv zeta.
  rewrite Hout. split; [reflexivity | exact Hfinal].
Qed.
End returning_runs.

Section pdflib_runs.
Import ReportRoute PdfLib.

Lemma with_document_last {A} (t : Z) (docs : list Document) (d : Document)
    (f : Document -> Result A * Document) :
  with_document {| now := t; documents := docs ++ [d] |} (length docs) f
  = ((f d).1, {| now := t; documents := docs ++ [(f d).2] |}).
Proof.
  unfold with_document. cbn [documents now].
  rewrite list_lookup_middle by reflexivity.
  destruct (f d) as [r d']. cbn [fst snd]. do 2 f_equal.
  induction docs as [| d0 docs IH]; [reflexivity |].
  cbn. f_equal. exact IH.
Qed.

Lemma pdflib_draw_lines (t : Z) (docs : list Document) f page_width ls :
  forall (d : Document) y0,
  exists y1,
    Observed.returns
      (run pdflib (draw_lines {| page_ref := length docs |} f page_width ls y0)
         {| now := t; documents := docs ++ [d] |})
      y1
      {| now := t;
         documents := docs ++ [{| info_date := info_date d; page_size := page_size d;
                                  content := content d ++ ls |}] |}.
Proof.
  induction ls as [| line rest IH]; intros d y0.
  - exists y0. rewrite app_nil_r. destruct d. apply returns_ret.
  - cbn [draw_lines].
    edestruct (IH {| info_date := info_date d; page_size := page_size d;
                     content := content d ++ [line] |}) as [y1 Hrest].
    exists y1. eapply returns_await_bind.
    + cbn [pdflib page_ref]. rewrite with_document_last. reflexivity.
    + cbn [fst snd]. cbn [info_date page_size content] in Hrest.
      rewrite <- app_assoc in Hrest. exact Hrest.
Qed.

Lemma pdflib_generate (w : Store) :
  Observed.returns (run pdflib generate w)
    (Observed.pdf_response (serialise (Observed.report_document (now w))))
    {| now := now w;
       documents := documents w ++ [Observed.report_document (now w)] |}.
Proof.
  destruct w as [t docs]. cbn [now documents]. unfold generate.
  eapply returns_await_bind; [reflexivity |].
  eapply returns_await_bind;
    [cbn [pdflib document_ref]; rewrite with_document_last; reflexivity |].
  cbn [fst snd].
  eapply returns_await_bind;
    [cbn [pdflib page_ref]; rewrite with_document_last; reflexivity |].
  cbn [fst snd].
  eapply returns_await_bind;
    [cbn [pdflib document_ref]; rewrite with_document_last; reflexivity |].
  cbn [fst snd].
  eapply returns_await_bind; [reflexivity |].
  eapply returns_await_bind;
    [cbn [pdflib page_ref]; rewrite with_document_last; reflexivity |].
  cbn [fst snd info_date page_size content width].
  edestruct (pdflib_draw_lines t docs) as [y1 Hlines].
  eapply returns_bind; [exact Hlines |].
  cbn [info_date page_size content].
  eapply returns_await_bind;
    [cbn [pdflib document_ref]; rewrite with_document_last; reflexivity |].
  cbn [fst snd]. apply returns_ret.
Qed.
End pdflib_runs.

(** C7. The report handler always responds.  When a call into pdf-lib
    threw or rejected during generation, the response is the text
    [Failed to generate report] with status 500 and no header of the
    handler's; when none did, it is the PDF response: status 200, the
    two headers of the download, and for a body exactly the bytes that
    [save], the last call of the run, returned for the document that
    the first call of the run created. *)
Theorem report_500_exactly_on_failure {W} (impl : Impl ReportRoute.Event W) (w : W) :
  exists response : NextResponse,
    outcome (run impl ReportRoute.GET w) = Ok response
    /\ if existsb ReportRoute.failed (trace (run impl ReportRoute.GET w))
       then response = ReportRoute.failure
            /\ status response = 500
            /\ body response = BodyText "Failed to generate report"
            /\ headers response = ∅
       else exists doc pdfBytes rest,
              trace (run impl ReportRoute.GET w)
                = Called ReportRoute.PDFDocument_create (Ok doc) :: rest
              /\ last (trace (run impl ReportRoute.GET w))
                 = Some (Called (ReportRoute.save doc) (Ok pdfBytes))
              /\ response = Observed.pdf_response pdfBytes
              /\ status response = 200
              /\ headers response !! "Content-Type" = Some "application/pdf"
              /\ headers response !! "Content-Disposition"
                 = Some ("attachment; filename=" ++ ReportRoute.quote
                         ++ "sample-report.pdf" ++ ReportRoute.quote).
Proof.
  destruct (GET_outcome impl w) as (response & Hout & Hcase).
  exists response. split; [exact Hout |].
  destruct (existsb ReportRoute.failed (trace (run impl ReportRoute.GET w))).
  - subst response. repeat split.
  - destruct Hcase as (Hstatus & Hheaders & _).
    destruct (GET_saves_document impl w response Hout Hstatus)
      as (doc & pdfBytes & rest & Htrace & Hlast & Hbody).
    exists doc, pdfBytes, rest.
    split; [exact Htrace |]. split; [exact Hlast |].
    assert (Hresponse : response = Observed.pdf_response pdfBytes).
    { destruct response as [b st hs]. cbn [body status headers] in *.
      subst b st hs. reflexivity. }
    split; [exact Hresponse |]. split; [exact Hstatus |].
    rewrite Hheaders. split; reflexivity.
Qed.

(** C4, as the code has it.  A response with status 200 has
    [Content-Type] exactly [application/pdf], and its body is the bytes
    that [save] returned for the document created in that invocation; the
    handler gives pdf-lib nothing but constants, so two invocations
    return the same response whenever pdf-lib answers alike in the
    states they start from.  With the model of pdf-lib, which stamps a
    new document with the time in seconds, every invocation returns the
    report document of its second, so two invocations within the same
    second return the same bytes, whatever the library already holds, a
    second invocation right after the first included. *)
Theorem report_identical_when_library_answers_alike :
  (forall {W} (impl : Impl ReportRoute.Event W) (w : W) (response : NextResponse),
     outcome (run impl ReportRoute.GET w) = Ok response ->
     status response = 200 ->
     headers response !! "Content-Type" = Some "application/pdf"
     /\ exists doc pdfBytes rest,
          trace (run impl ReportRoute.GET w)
            = Called ReportRoute.PDFDocument_create (Ok doc) :: rest
          /\ last (trace (run impl ReportRoute.GET w))
             = Some (Called (ReportRoute.save doc) (Ok pdfBytes))
          /\ body response = BodyBytes pdfBytes)
  /\ (forall {W} (impl : Impl ReportRoute.Event W) (R : W -> W -> Prop) (w1 w2 : W),
        respects impl R -> R w1 w2 ->
        outcome (run impl ReportRoute.GET w1) = outcome (run impl ReportRoute.GET w2)
        /\ trace (run impl ReportRoute.GET w1) = trace (run impl ReportRoute.GET w2))
  /\ (forall w : PdfLib.Store,
        outcome (run PdfLib.pdflib ReportRoute.GET w)
        = Ok (Observed.pdf_response
                (PdfLib.serialise (Observed.report_document (PdfLib.now w)))))
  /\ (forall w1 w2 : PdfLib.Store,
        PdfLib.now w1 `div` 1000 = PdfLib.now w2 `div` 1000 ->
        outcome (run PdfLib.pdflib ReportRoute.GET w1)
        = outcome (run PdfLib.pdflib ReportRoute.GET w2))
  /\ (forall w : PdfLib.Store,
        outcome (run PdfLib.pdflib ReportRoute.GET
                   (final (run PdfLib.pdflib ReportRoute.GET w)))
        = outcome (run PdfLib.pdflib ReportRoute.GET w)).
Proof.
  assert (Hget : forall w : PdfLib.Store,
             Observed.returns (run PdfLib.pdflib ReportRoute.GET w)
               (Observed.pdf_response
                  (PdfLib.serialise (Observed.report_document (PdfLib.now w))))
               {| PdfLib.now := PdfLib.now w;
                  PdfLib.documents :=
                    PdfLib.documents w ++ [Observed.report_document (PdfLib.now w)] |}).
  { intros w. apply returns_try_catch, pdflib_generate. }
  split; [| split; [| split; [| split]]].
  - intros W impl w response Hout Hstatus.
    destruct (GET_outcome impl w) as (response' & Hout' & Hcase).
    rewrite Hout in Hout'. injection Hout' as <-.
    destruct (existsb ReportRoute.failed (trace (run impl ReportRoute.GET w))).
    + subst response. discriminate Hstatus.
    + destruct Hcase as (_ & Hheaders & _).
      rewrite Hheaders. split; [reflexivity |].
      exact (GET_saves_document impl w response Hout Hstatus).
  - intros W impl R w1 w2 Himpl HR.
    destruct (run_respects impl R ReportRoute.GET w1 w2 Himpl HR) as (Ho & Ht & _).
    split; assumption.
  - intros w. apply Hget.
  - intros w1 w2 Hsecond.
    destruct (Hget w1) as [-> _], (Hget w2) as [-> _].
    unfold Observed.report_document. rewrite Hsecond. reflexivity.
  - intros w.
    destruct (Hget w) as [Hout Hfinal]. rewrite Hfinal.
    destruct (Hget {| PdfLib.now := PdfLib.now w;
                      PdfLib.documents :=
                        PdfLib.documents w
                        ++ [Observed.report_document (PdfLib.now w)] |})
      as [-> _].
    rewrite Hout. reflexivity.
Qed.

Lemma report_identical_when_library_answers_alike_witness :
  outcome (run PdfLib.pdflib ReportRoute.GET (PdfLib.at_time 1700000000123))
  = outcome (run PdfLib.pdflib ReportRoute.GET
               {| PdfLib.now := 1700000000987;
                  PdfLib.documents := [Observed.report_document 5] |}).
Proof.
  destruct report_identical_when_library_answers_alike as (_ & _ & _ & Hsecond & _).
  apply Hsecond. reflexivity.
Defined.
